(** * Brute-force mesh collision core of [sample2/main.cpp]

    A shallow embedding of the separating-axis kernel
    ([checkOverlapOnAxis], [TriTriIntersect]), of the bounding-box broad
    phase ([PrimitiveBroadPhase]) and of the query facade
    ([AtayBayazitCollide]).

    The source computes on [double] through Eigen's [Vector3d] and
    [Transform3d].  Neither the number type nor Eigen is part of the
    repository, so the embedding takes the numbers as a parameter: a
    [Scalar] packs the carrier with the three arithmetic operations, the
    strict comparison and the literal [1e-8] that the source uses, and
    Eigen's [dot], [cross], [squaredNorm], [-] and [tf * v] are written out
    over it by their textbook formulas.  Every function of the source is
    embedded once, over an arbitrary [Scalar], and is then run on two
    instances: [binary64] (IEEE doubles, what the compiled program computes
    on) and [rational] (exact arithmetic).  Each theorem says which laws of
    the numbers it relies on; those that rely on none hold for doubles as
    they stand, and the laws themselves are proved for both instances.

    A mesh is its vertex buffer and its triangle buffer.  The source reads
    [m->vertices[tri[k]]] without a check, so the facade returns an
    [outcome]: a value, or the undefined behaviour of a read past the end
    of the buffer.  The [omp parallel for] loop nest is embedded twice: in
    the order of the sequential program ([narrowPhase], inside
    [AtayBayazitCollide]) and under an arbitrary schedule of its iterations
    ([runSchedule], inside [AtayBayazitCollideUnder]).  With indices in
    bounds all schedules return what the sequential program returns
    ([AtayBayazitCollide_any_schedule]); with an index out of bounds the
    outcome depends on the schedule, and what is proved about such input
    is proved for every schedule.

    The mesh generator [createSphereMesh] is embedded too, with the C
    library ([sin], [cos], [M_PI], division) as a parameter and [int]
    arithmetic on 32 bits. *)

From Stdlib Require Import Bool List Arith Lia ZArith QArith Floats.
From Stdlib Require Import Setoid Morphisms Permutation.
Import ListNotations.

Close Scope Q_scope.
Open Scope nat_scope.

Set Implicit Arguments.

(* ================================================================= *)
(** ** Numbers *)

Record Scalar : Type := MkScalar {
  num :> Type;
  plus : num -> num -> num;
  minus : num -> num -> num;
  times : num -> num -> num;
  less : num -> num -> bool;          (* operator< *)
  epsilon : num                       (* the literal 1e-8 *)
}.

Arguments plus {_} _ _.
Arguments minus {_} _ _.
Arguments times {_} _ _.
Arguments less {_} _ _.
Arguments epsilon {_}.

(** [std::min(a, b)] is [(b < a) ? b : a] and [std::max(a, b)] is
    [(a < b) ? b : a]. *)
Definition std_min {K : Scalar} (a b : K) : K := if less b a then b else a.
Definition std_max {K : Scalar} (a b : K) : K := if less a b then b else a.

(* ================================================================= *)
(** ** Eigen's vectors and transforms *)

Record Vector3d (K : Scalar) : Type := Vec { vx : K; vy : K; vz : K }.

Arguments Vec {K} _ _ _.

(** A row of three vectors: the C arrays [Vector3d U[3]]. *)
Definition Array3 (K : Scalar) : Type := (Vector3d K * Vector3d K * Vector3d K)%type.

(** The isometry [x |-> linear * x + translation]; the linear part is kept
    as its three rows. *)
Record Transform3d (K : Scalar) : Type := Tf {
  linear : Array3 K;
  translation : Vector3d K
}.

Section Eigen.
Context {K : Scalar}.

Definition vsub (a b : Vector3d K) : Vector3d K :=
  Vec (minus (vx a) (vx b)) (minus (vy a) (vy b)) (minus (vz a) (vz b)).

Definition vadd (a b : Vector3d K) : Vector3d K :=
  Vec (plus (vx a) (vx b)) (plus (vy a) (vy b)) (plus (vz a) (vz b)).

Definition dot (a b : Vector3d K) : K :=
  plus (plus (times (vx a) (vx b)) (times (vy a) (vy b))) (times (vz a) (vz b)).

Definition squaredNorm (a : Vector3d K) : K := dot a a.

Definition cross (a b : Vector3d K) : Vector3d K :=
  Vec (minus (times (vy a) (vz b)) (times (vz a) (vy b)))
      (minus (times (vz a) (vx b)) (times (vx a) (vz b)))
      (minus (times (vx a) (vy b)) (times (vy a) (vx b))).

(** [A[i]] for [i < 3]; the loops that index these arrays never leave
    [0..2]. *)
Definition at3 (A : Array3 K) (i : nat) : Vector3d K :=
  let '(a0, a1, a2) := A in
  match i with 0 => a0 | 1 => a1 | _ => a2 end.

(** [v[i]] for a coordinate [i < 3]. *)
Definition coord (v : Vector3d K) (i : nat) : K :=
  match i with 0 => vx v | 1 => vy v | _ => vz v end.

(** [tf * v] *)
Definition transform (tf : Transform3d K) (v : Vector3d K) : Vector3d K :=
  let '(r0, r1, r2) := linear tf in
  vadd (Vec (dot r0 v) (dot r1 v) (dot r2 v)) (translation tf).

End Eigen.

(* ================================================================= *)
(** ** Part 1 of the source: the separating-axis kernel *)

Section SAT.
Context {K : Scalar}.

(** The two scanning loops of [checkOverlapOnAxis]:
    [min = max = axis.dot(W[0])], then [i = 1, 2] widen the pair. *)
Definition widen (axis : Vector3d K) (W : Array3 K) (mm : K * K) (i : nat) : K * K :=
  let projection := dot axis (at3 W i) in
  (std_min (fst mm) projection, std_max (snd mm) projection).

Definition projectOnAxis (axis : Vector3d K) (W : Array3 K) : K * K :=
  let first := dot axis (at3 W 0) in
  fold_left (widen axis W) (seq 1 2) (first, first).

Definition checkOverlapOnAxis (axis : Vector3d K) (U V : Array3 K) : bool :=
  if less (squaredNorm axis) epsilon then true
  else
    let '(minU, maxU) := projectOnAxis axis U in
    let '(minV, maxV) := projectOnAxis axis V in
    if less maxU minV || less maxV minU then false
    else true.

Definition edges (W : Array3 K) : Array3 K :=
  let '(w0, w1, w2) := W in (vsub w1 w0, vsub w2 w1, vsub w0 w2).

Definition TriTriIntersect (U0 U1 U2 V0 V1 V2 : Vector3d K) : bool :=
  let U := (U0, U1, U2) in
  let V := (V0, V1, V2) in
  let edgeU := edges U in
  let edgeV := edges V in
  let normalU := cross (at3 edgeU 0) (at3 edgeU 1) in
  if negb (checkOverlapOnAxis normalU U V) then false
  else
    let normalV := cross (at3 edgeV 0) (at3 edgeV 1) in
    if negb (checkOverlapOnAxis normalV U V) then false
    else
      forallb (fun i =>
        forallb (fun j =>
          let crossAxis := cross (at3 edgeU i) (at3 edgeV j) in
          checkOverlapOnAxis crossAxis U V)
        (seq 0 3))
      (seq 0 3).

End SAT.

(* ================================================================= *)
(** ** What a call can do *)

(** A C++ call either returns, or throws, or runs into undefined
    behaviour.  The only undefined behaviour that the modelled functions
    can reach is a read past the end of a vertex buffer. *)
Inductive exn : Type := invalid_argument.

Inductive outcome (A : Type) : Type :=
| Return (a : A)
| Throw (e : exn)
| Undefined.

Arguments Return {A} _.
Arguments Throw {A} _.
Arguments Undefined {A}.

Definition bind {A B : Type} (o : outcome A) (k : A -> outcome B) : outcome B :=
  match o with
  | Return a => k a
  | Throw e => Throw e
  | Undefined => Undefined
  end.

Notation "x <- o ;; k" := (bind o (fun x => k))
  (at level 61, o at next level, right associativity).

(** A [for] loop over the elements of a buffer, whose body updates one
    variable. *)
Fixpoint for_each {A S : Type} (body : S -> A -> outcome S) (l : list A) (s : S)
  : outcome S :=
  match l with
  | [] => Return s
  | a :: rest => s' <- body s a ;; for_each body rest s'
  end.

(** What a loop nest that holds an out-of-bounds index can end in: the
    unchecked read, or the flag raised. *)
Definition readsAstray (o : outcome bool) : Prop := o = Undefined \/ o = Return true.

(* ================================================================= *)
(** ** FCL's mesh *)

(** [fcl::Triangle]: three indices into the vertex buffer. *)
Record Triangle : Type := Tri { vid0 : nat; vid1 : nat; vid2 : nat }.

(** What the functions read of a [BVHModel<OBBRSSd>]: the vertex buffer
    and the triangle buffer; [num_vertices] and [num_tris] are their
    lengths. *)
Record BVHModel (K : Scalar) : Type := Model {
  vertices : list (Vector3d K);
  tri_indices : list Triangle
}.

Definition num_vertices {K : Scalar} (m : BVHModel K) : nat := length (vertices m).
Definition num_tris {K : Scalar} (m : BVHModel K) : nat := length (tri_indices m).

(* ================================================================= *)
(** ** Part 2 of the source: broad phase and facade *)

Section Collide.
Context {K : Scalar}.

(** One round of the bounding-box loops: the vertex goes to world space
    and each coordinate widens the box. *)
Definition grow (tf : Transform3d K) (box : Vector3d K * Vector3d K) (p : Vector3d K)
  : Vector3d K * Vector3d K :=
  let v := transform tf p in
  let '(lo, hi) := box in
  (Vec (std_min (vx lo) (vx v)) (std_min (vy lo) (vy v)) (std_min (vz lo) (vz v)),
   Vec (std_max (vx hi) (vx v)) (std_max (vy hi) (vy v)) (std_max (vz hi) (vz v))).

(** [min = max = tf * vertices[0]], then the loop from [i = 1]. *)
Definition boundingBox (tf : Transform3d K) (v0 : Vector3d K) (rest : list (Vector3d K))
  : Vector3d K * Vector3d K :=
  let first := transform tf v0 in
  fold_left (grow tf) rest (first, first).

Definition PrimitiveBroadPhase (m1 : BVHModel K) (tf1 : Transform3d K)
                               (m2 : BVHModel K) (tf2 : Transform3d K) : bool :=
  match vertices m1, vertices m2 with
  | [], _ | _, [] => false               (* num_vertices == 0 on either side *)
  | a0 :: rest1, b0 :: rest2 =>
      let '(min1, max1) := boundingBox tf1 a0 rest1 in
      let '(min2, max2) := boundingBox tf2 b0 rest2 in
      if less (vx max1) (vx min2) || less (vx max2) (vx min1) then false
      else if less (vy max1) (vy min2) || less (vy max2) (vy min1) then false
      else if less (vz max1) (vz min2) || less (vz max2) (vz min1) then false
      else true
  end.

(** [tf * m->vertices[i]]: the read is unchecked in the source, hence
    undefined past the end of the buffer. *)
Definition worldVertex (m : BVHModel K) (tf : Transform3d K) (i : nat)
  : outcome (Vector3d K) :=
  match nth_error (vertices m) i with
  | Some v => Return (transform tf v)
  | None => Undefined
  end.

(** The body of the doubly nested loop, on the shared flag
    [collision]. *)
Definition narrowBody (m1 : BVHModel K) (tf1 : Transform3d K)
                      (m2 : BVHModel K) (tf2 : Transform3d K)
                      (tri1 tri2 : Triangle) (collision : bool) : outcome bool :=
  if collision then Return collision       (* continue *)
  else
    U0 <- worldVertex m1 tf1 (vid0 tri1) ;;
    U1 <- worldVertex m1 tf1 (vid1 tri1) ;;
    U2 <- worldVertex m1 tf1 (vid2 tri1) ;;
    V0 <- worldVertex m2 tf2 (vid0 tri2) ;;
    V1 <- worldVertex m2 tf2 (vid1 tri2) ;;
    V2 <- worldVertex m2 tf2 (vid2 tri2) ;;
    Return (if TriTriIntersect U0 U1 U2 V0 V1 V2 then true else collision).

(** The loop on [j], for one triangle of the first mesh. *)
Definition innerLoop (m1 : BVHModel K) (tf1 : Transform3d K)
                     (m2 : BVHModel K) (tf2 : Transform3d K)
                     (tri1 : Triangle) (tris2 : list Triangle) (collision : bool)
  : outcome bool :=
  for_each (fun collision tri2 => narrowBody m1 tf1 m2 tf2 tri1 tri2 collision)
           tris2 collision.

(** The loop on [i]. *)
Definition outerLoop (m1 : BVHModel K) (tf1 : Transform3d K)
                     (m2 : BVHModel K) (tf2 : Transform3d K)
                     (tris1 tris2 : list Triangle) (collision : bool) : outcome bool :=
  for_each (fun collision tri1 => innerLoop m1 tf1 m2 tf2 tri1 tris2 collision)
           tris1 collision.

(** The loop nest, run in the order of the sequential program: the
    schedule of one thread.  The OpenMP pragma hands the same iterations
    to several threads; the flag only ever goes from [false] to [true], so
    with indices in bounds every schedule ends with the same flag, but with
    an index out of bounds the outcome depends on the schedule (see
    [runSchedule]). *)
Definition narrowPhase (m1 : BVHModel K) (tf1 : Transform3d K)
                       (m2 : BVHModel K) (tf2 : Transform3d K) : outcome bool :=
  outerLoop m1 tf1 m2 tf2 (tri_indices m1) (tri_indices m2) false.

(** The iterations of the loop nest run one after the other in an
    arbitrary order, as the threads of the [parallel for collapse(2)] may
    interleave them. *)
Definition runPairs (m1 : BVHModel K) (tf1 : Transform3d K)
                    (m2 : BVHModel K) (tf2 : Transform3d K)
                    (pairs : list (Triangle * Triangle)) (collision : bool)
  : outcome bool :=
  for_each (fun collision pair =>
              narrowBody m1 tf1 m2 tf2 (fst pair) (snd pair) collision)
           pairs collision.

Definition AtayBayazitCollide (m1 : BVHModel K) (tf1 : Transform3d K)
                              (m2 : BVHModel K) (tf2 : Transform3d K) : outcome bool :=
  if negb (PrimitiveBroadPhase m1 tf1 m2 tf2) then Return false
  else narrowPhase m1 tf1 m2 tf2.

End Collide.

(* ================================================================= *)
(** ** The two number systems the model is run on *)

(** IEEE 754 binary64 with round-to-nearest-even, the [double] of the
    source.  The literal is [1e-8] rounded to the nearest double, which is
    what the compiler stores for it. *)
Definition binary64 : Scalar :=
  MkScalar PrimFloat.add PrimFloat.sub PrimFloat.mul PrimFloat.ltb
           0x1.5798ee2308c3ap-27%float.

(** Exact rational arithmetic. *)
Definition Qltb (x y : Q) : bool := negb (Qle_bool y x).

Definition rational : Scalar :=
  MkScalar Qplus Qminus Qmult Qltb (1 # 100000000)%Q.

(* ================================================================= *)
(** ** The words of the specification *)

Section Words.
Context {K : Scalar}.

(** The face normal of a triangle: the cross product of its first two
    edges. *)
Definition faceNormal (W : Array3 K) : Vector3d K :=
  let '(w0, w1, w2) := W in cross (vsub w1 w0) (vsub w2 w1).

Definition edgeVectors (W : Array3 K) : list (Vector3d K) :=
  let '(w0, w1, w2) := W in [vsub w1 w0; vsub w2 w1; vsub w0 w2].

(** The candidate axes: both face normals, then every edge of [A]
    crossed with every edge of [B]. *)
Definition candidateAxes (A B : Array3 K) : list (Vector3d K) :=
  faceNormal A :: faceNormal B ::
  flat_map (fun ea => map (fun eb => cross ea eb) (edgeVectors B)) (edgeVectors A).

(** The three scalars a triangle projects to on an axis. *)
Definition projections (axis : Vector3d K) (W : Array3 K) : list K :=
  let '(w0, w1, w2) := W in [dot axis w0; dot axis w1; dot axis w2].

(** [lo] is a minimum of [ps]: one of them, with none below it. *)
Definition least (lo : K) (ps : list K) : Prop :=
  In lo ps /\ forall p, In p ps -> less p lo = false.

(** [hi] is a maximum of [ps]: one of them, with none above it. *)
Definition greatest (hi : K) (ps : list K) : Prop :=
  In hi ps /\ forall p, In p ps -> less hi p = false.

(** The closed intervals [[loA, hiA]] and [[loB, hiB]] meet: neither
    ends strictly before the other begins. *)
Definition intervalsOverlap (loA hiA loB hiB : K) : Prop :=
  ~ (less hiA loB = true \/ less hiB loA = true).

End Words.

Section MeshWords.
Context {K : Scalar}.

(** Every index of every triangle lies inside the vertex buffer. *)
Definition inBounds (m : BVHModel K) (t : Triangle) : Prop :=
  vid0 t < num_vertices m /\ vid1 t < num_vertices m /\ vid2 t < num_vertices m.

Definition wellFormed (m : BVHModel K) : Prop := Forall (inBounds m) (tri_indices m).

(** The three vertices of a triangle in world space, when its indices
    are in bounds. *)
Definition worldTriangle (m : BVHModel K) (tf : Transform3d K) (t : Triangle)
  : option (Array3 K) :=
  match nth_error (vertices m) (vid0 t),
        nth_error (vertices m) (vid1 t),
        nth_error (vertices m) (vid2 t) with
  | Some a, Some b, Some c => Some (transform tf a, transform tf b, transform tf c)
  | _, _, _ => None
  end.

(** Triangle [i] of the first mesh and triangle [j] of the second,
    taken to world space by their meshes' transforms, intersect. *)
Definition pairIntersects (m1 : BVHModel K) (tf1 : Transform3d K)
                          (m2 : BVHModel K) (tf2 : Transform3d K) (i j : nat) : Prop :=
  exists t1 t2 U0 U1 U2 V0 V1 V2,
    nth_error (tri_indices m1) i = Some t1 /\
    nth_error (tri_indices m2) j = Some t2 /\
    worldTriangle m1 tf1 t1 = Some (U0, U1, U2) /\
    worldTriangle m2 tf2 t2 = Some (V0, V1, V2) /\
    TriTriIntersect U0 U1 U2 V0 V1 V2 = true.

(** The same test on two triangles, as a Boolean; [false] when an index
    is out of bounds. *)
Definition hit (m1 : BVHModel K) (tf1 : Transform3d K)
               (m2 : BVHModel K) (tf2 : Transform3d K) (t1 t2 : Triangle) : bool :=
  match worldTriangle m1 tf1 t1, worldTriangle m2 tf2 t2 with
  | Some (U0, U1, U2), Some (V0, V1, V2) => TriTriIntersect U0 U1 U2 V0 V1 V2
  | _, _ => false
  end.

(** The vertices of a mesh in world space, and one coordinate of each
    (0, 1, 2 for x, y, z). *)
Definition worldVertices (m : BVHModel K) (tf : Transform3d K) : list (Vector3d K) :=
  map (transform tf) (vertices m).

Definition coordinates (i : nat) (vs : list (Vector3d K)) : list K :=
  map (fun v => coord v i) vs.

(** On coordinate [i], one box ends strictly before the other
    begins. *)
Definition axisGap (box1 box2 : Vector3d K * Vector3d K) (i : nat) : bool :=
  less (coord (snd box1) i) (coord (fst box2) i)
  || less (coord (snd box2) i) (coord (fst box1) i).

End MeshWords.

(** The laws of the comparison that the order-dependent results need.
    [ordered] singles out the numbers that compare with every other one:
    all of them in exact arithmetic, all but NaN for doubles. *)
Record OrderLaws (K : Scalar) (ordered : K -> Prop) : Prop := {
  less_irrefl : forall x : K, less x x = false;
  less_trans : forall x y z : K, less x y = true -> less y z = true -> less x z = true;
  less_through : forall x y z : K,
      ordered y -> less x y = false -> less y z = false -> less x z = false
}.

(** The laws of the arithmetic that symmetry of the query needs: a
    negation [opp] that the operations respect, up to an equivalence
    [same] of numbers that the operations do not tell apart (equality of
    values in exact arithmetic; for doubles, equality up to the sign of
    zero). *)
Record SignLaws (K : Scalar) (same : K -> K -> Prop) (opp : K -> K) : Prop := {
  same_refl : forall x : K, same x x;
  same_sym : forall x y : K, same x y -> same y x;
  same_trans : forall x y z : K, same x y -> same y z -> same x z;
  plus_same : forall x x' y y' : K, same x x' -> same y y' -> same (plus x y) (plus x' y');
  minus_same : forall x x' y y' : K, same x x' -> same y y' -> same (minus x y) (minus x' y');
  times_same : forall x x' y y' : K, same x x' -> same y y' -> same (times x y) (times x' y');
  opp_same : forall x x' : K, same x x' -> same (opp x) (opp x');
  less_same : forall x x' y y' : K, same x x' -> same y y' -> less x y = less x' y';
  times_comm : forall x y : K, same (times x y) (times y x);
  minus_swap : forall x y : K, same (minus y x) (opp (minus x y));
  times_opp : forall x y : K, same (times (opp x) y) (opp (times x y));
  plus_opp : forall x y : K, same (plus (opp x) (opp y)) (opp (plus x y));
  opp_opp : forall x : K, same (opp (opp x)) x;
  less_opp : forall x y : K, less (opp x) (opp y) = less y x
}.

(** [a'] is the opposite vector of [a], coordinate by coordinate. *)
Definition mirrored {K : Scalar} (same : K -> K -> Prop) (opp : K -> K)
           (a' a : Vector3d K) : Prop :=
  same (vx a') (opp (vx a)) /\ same (vy a') (opp (vy a)) /\ same (vz a') (opp (vz a)).

(* ================================================================= *)
(** ** Scenes to run the model on *)

Definition vec64 (x y z : float) : Vector3d binary64 := @Vec binary64 x y z.
Definition vecQ (x y z : Q) : Vector3d rational := @Vec rational x y z.

Definition identity64 : Transform3d binary64 :=
  Tf (vec64 1 0 0, vec64 0 1 0, vec64 0 0 1) (vec64 0 0 0).

Definition identityQ : Transform3d rational :=
  Tf (vecQ 1 0 0, vecQ 0 1 0, vecQ 0 0 1) (vecQ 0 0 0).

Definition shiftQ (x y z : Q) : Transform3d rational :=
  Tf (vecQ 1 0 0, vecQ 0 1 0, vecQ 0 0 1) (vecQ x y z).

(** One vertex and no triangle. *)
Definition loneVertex64 : BVHModel binary64 := Model [vec64 0 0 0] [].

(** A triangle at the origin whose third index points one past the end of
    its three-vertex buffer. *)
Definition strayIndex64 : BVHModel binary64 :=
  Model [vec64 0 0 0; vec64 1 0 0; vec64 0 1 0] [Tri 0 1 3].

(** A sound triangle at the origin, and one far from it. *)
Definition originTriangle64 : BVHModel binary64 :=
  Model [vec64 0 0 0; vec64 1 0 0; vec64 0 1 0] [Tri 0 1 2].

Definition farTriangle64 : BVHModel binary64 :=
  Model [vec64 10 10 10; vec64 11 10 10; vec64 10 11 10] [Tri 0 1 2].

(** The same in exact arithmetic, with a triangle that touches the first
    one in the origin only, and a mesh without triangles. *)
Definition originTriangleQ : BVHModel rational :=
  Model [vecQ 0 0 0; vecQ 1 0 0; vecQ 0 1 0] [Tri 0 1 2].

Definition touchingTriangleQ : BVHModel rational :=
  Model [vecQ 0 0 0; vecQ (-1) 0 0; vecQ 0 (-1) 0] [Tri 0 1 2].

Definition noTrianglesQ : BVHModel rational :=
  Model [vecQ 0 0 0; vecQ 1 0 0; vecQ 0 1 0] [].


(* ================================================================= *)
(** ** Doubles, seen through their specification *)

(** Two doubles that the operations of the source ([+], [-], [*], [<])
    do not tell apart: the same datum, or two zeros (of either sign). *)
Definition sfSame (a b : spec_float) : Prop :=
  a = b \/ exists s s', a = S754_zero s /\ b = S754_zero s'.

Definition same64 (x y : float) : Prop := sfSame (Prim2SF x) (Prim2SF y).

(** The doubles that compare with every double: all but NaN. *)
Definition ordered64 (x : float) : Prop := Prim2SF x <> S754_nan.

(** The place of a double that is not NaN on the number line, as a key
    compared lexicographically: sign class first, then exponent, then
    mantissa (both reversed for negative numbers). *)
Definition sfKey (a : spec_float) : Z * Z * Z :=
  match a with
  | S754_nan => (0, 0, 0)
  | S754_zero _ => (0, 0, 0)
  | S754_infinity true => (-2, 0, 0)
  | S754_infinity false => (2, 0, 0)
  | S754_finite true m e => (-1, - e, Z.neg m)
  | S754_finite false m e => (1, e, Z.pos m)
  end%Z.

Definition keyBelow (k k' : Z * Z * Z) : Prop :=
  let '(a, b, c) := k in
  let '(a', b', c') := k' in
  (a < a' \/ (a = a' /\ (b < b' \/ (b = b' /\ c < c'))))%Z.

(** Triangles as rows of three points, for the kernel. *)
Definition flatU64 : Array3 binary64 := (vec64 0 0 0, vec64 1 0 0, vec64 0 1 0).
Definition liftedV64 : Array3 binary64 := (vec64 0 0 5, vec64 1 0 5, vec64 0 1 5).
Definition touchingV64 : Array3 binary64 := (vec64 0 0 0, vec64 (-1) 0 0, vec64 0 (-1) 0).
Definition needle64 : Array3 binary64 := (vec64 1 1 1, vec64 1 1 1, vec64 2 2 2).

Definition touchingTriangle64 : BVHModel binary64 :=
  Model [vec64 0 0 0; vec64 (-1) 0 0; vec64 0 (-1) 0] [Tri 0 1 2].

Definition emptyQ : BVHModel rational := Model [] [].

(** The two opposite corners of the unit box centred at [(c, c, c)]; the
    other six corners do not change its bounding box. *)
Definition unitBox64 (c : float) : BVHModel binary64 :=
  Model [vec64 (c - 0.5) (c - 0.5) (c - 0.5); vec64 (c + 0.5) (c + 0.5) (c + 0.5)] [].

(** Two triangles whose edges are long enough for a cross product to
    overflow; they meet in the origin only (one lies in [x >= 0], the
    other in [x <= 0]). *)
Definition hugeU64 : Array3 binary64 := (vec64 1 0 0, vec64 1 0x1p600 0, vec64 0 0 0).
Definition hugeV64 : Array3 binary64 := (vec64 (-1) 0 0, vec64 (-1) 0 0x1p600, vec64 0 0 0).

(* ================================================================= *)
(** ** Part 3 of the source: the sphere mesh generator *)

(** [int] is 32 bits wide.  Signed overflow is undefined in C++; the
    operations below wrap, as the compiled program does, and the results
    about the generator are stated where nothing overflows. *)
Definition int_wrap (x : Z) : Z := ((x + 2 ^ 31) mod 2 ^ 32 - 2 ^ 31)%Z.
Definition int_add (a b : Z) : Z := int_wrap (a + b).
Definition int_mul (a b : Z) : Z := int_wrap (a * b).

(** The conversion of an [int] argument to the [std::size_t] that
    [fcl::Triangle] stores (64 bits). *)
Definition size_t_of_int (x : Z) : nat := Z.to_nat (x mod 2 ^ 64).

(** The values a loop [for (int i = 0; i < n; ++i)] gives to [i], and
    those of [for (int i = 0; i <= n; ++i)]. *)
Definition below (n : Z) : list Z := map Z.of_nat (seq 0 (Z.to_nat n)).
Definition upto (n : Z) : list Z := map Z.of_nat (seq 0 (Z.to_nat (n + 1))).

(** What the generator takes from the C library and from the language:
    the conversion of an [int] to [double], division, [sin], [cos], the
    constant [M_PI] and the literal [2.0]. *)
Record Libm (K : Scalar) : Type := MkLibm {
  fromInt : Z -> K;
  quot : K -> K -> K;
  sin : K -> K;
  cos : K -> K;
  M_PI : K;
  lit2 : K
}.

Section Sphere.
Context {K : Scalar}.
Variable libm : Libm K.

(** The vertex that the loops on [i] and [j] append. *)
Definition sphereVertex (radius : K) (stacks slices i j : Z) : Vector3d K :=
  let phi := quot libm (times (M_PI libm) (fromInt libm i)) (fromInt libm stacks) in
  let theta := quot libm (times (times (lit2 libm) (M_PI libm)) (fromInt libm j))
                    (fromInt libm slices) in
  let x := times (times radius (sin libm phi)) (cos libm theta) in
  let y := times (times radius (sin libm phi)) (sin libm theta) in
  let z := times radius (cos libm phi) in
  Vec x y z.

Definition sphereVertices (radius : K) (stacks slices : Z) : list (Vector3d K) :=
  flat_map (fun i => map (fun j => sphereVertex radius stacks slices i j) (upto slices))
           (upto stacks).

(** The two triangles that the loops on [i] and [j] append. *)
Definition sphereQuad (slices i j : Z) : list Triangle :=
  let first := int_add (int_mul i (int_add slices 1)) j in
  let second := int_add (int_add first slices) 1 in
  [ Tri (size_t_of_int first) (size_t_of_int second) (size_t_of_int (int_add first 1));
    Tri (size_t_of_int second) (size_t_of_int (int_add second 1))
        (size_t_of_int (int_add first 1)) ].

Definition sphereTriangles (stacks slices : Z) : list Triangle :=
  flat_map (fun i => flat_map (fun j => sphereQuad slices i j) (below slices))
           (below stacks).

(** [createSphereMesh]: the model that [addSubModel] fills with the two
    vectors (FCL copies them into an empty model as they are). *)
Definition createSphereMesh (radius : K) (stacks slices : Z) : BVHModel K :=
  Model (sphereVertices radius stacks slices) (sphereTriangles stacks slices).

End Sphere.

(** The arguments are [int]s for which the generator stays defined: the
    loop counters can pass [stacks] and [slices] without overflow, and so
    can the largest index it computes. *)
Definition fitsInt (stacks slices : Z) : Prop :=
  (- 2 ^ 31 <= stacks < 2 ^ 31 - 1 /\ - 2 ^ 31 <= slices < 2 ^ 31 - 1 /\
   Z.max 0 (stacks + 1) * Z.max 0 (slices + 1) <= 2 ^ 31 - 1)%Z.

(** The three indices of a triangle differ from one another. *)
Definition distinctIndices (t : Triangle) : Prop :=
  vid0 t <> vid1 t /\ vid1 t <> vid2 t /\ vid0 t <> vid2 t.

(** Vertex [k] is a corner of triangle [t]. *)
Definition cornerOf (k : nat) (t : Triangle) : Prop :=
  vid0 t = k \/ vid1 t = k \/ vid2 t = k.

(** The laws of the arithmetic that the degenerate-axis rule rests on:
    [null] numbers are the zeros, [regular] ones those that cancel
    themselves (all in exact arithmetic; for doubles the finite ones). *)
Record NullLaws (K : Scalar) (regular null : K -> Prop) : Prop := {
  minus_self : forall x : K, regular x -> null (minus x x);
  times_null : forall a b : K, null a -> null b -> null (times a b);
  minus_null : forall a b : K, null a -> null b -> null (minus a b);
  plus_null : forall a b : K, null a -> null b -> null (plus a b);
  null_small : forall a : K, null a -> less a epsilon = true
}.

Definition eachCoordinate {K : Scalar} (P : K -> Prop) (v : Vector3d K) : Prop :=
  P (vx v) /\ P (vy v) /\ P (vz v).

Definition regular64 (x : float) : Prop :=
  match Prim2SF x with
  | S754_zero _ | S754_finite _ _ _ => True
  | S754_infinity _ | S754_nan => False
  end.

Definition null64 (x : float) : Prop := exists s, Prim2SF x = S754_zero s.

Definition nullQ (x : Q) : Prop := (x == 0)%Q.

(* ================================================================= *)
(** ** More scenes *)

(** A stand-in for the C library on doubles: the conversion through
    63-bit integers and the first terms of the sine and cosine series.
    Nothing proved about the generator depends on it. *)
Definition float_of_Z (z : Z) : float :=
  match z with
  | Z0 => 0%float
  | Zpos _ => PrimFloat.of_uint63 (Uint63.of_Z z)
  | Zneg p => PrimFloat.opp (PrimFloat.of_uint63 (Uint63.of_Z (Zpos p)))
  end.

Definition seriesLibm64 : Libm binary64 :=
  @MkLibm binary64 float_of_Z PrimFloat.div
    (fun x => x - x * x * x / 6 + x * x * x * x * x / 120)%float
    (fun x => 1 - x * x / 2 + x * x * x * x / 24)%float
    0x1.921fb54442d18p+1%float 2%float.

(** A mesh of two triangles, the second with an index past the end of the
    buffer. *)
Definition soundThenStray64 : BVHModel binary64 :=
  Model [vec64 0 0 0; vec64 1 0 0; vec64 0 1 0] [Tri 0 1 2; Tri 0 1 7].

(** A square of two triangles around the origin and another that overlaps
    it. *)
Definition square64 : BVHModel binary64 :=
  Model [vec64 (-1) (-1) 0; vec64 1 (-1) 0; vec64 1 1 0; vec64 (-1) 1 0]
        [Tri 0 1 2; Tri 0 2 3].

Definition tilted64 : BVHModel binary64 :=
  Model [vec64 0 0 (-1); vec64 0 0 1; vec64 0 3 1; vec64 5 5 5]
        [Tri 0 1 2; Tri 1 2 3].

(* ================================================================= *)
(** ** The loop nest under a schedule *)

(** The source runs the loop nest under [omp parallel for collapse(2)]
    with the flag [collision] shared and unsynchronised.  A schedule lists
    the iterations in the order in which they read the flag and says, for
    each, whether that read sees a flag that an earlier iteration has
    raised ([true]) or a stale [false].  An iteration that sees the flag
    raised does nothing; any other reads its six vertices, unchecked, and
    raises the flag on a hit. *)
Definition Turn : Type := (Triangle * Triangle * bool)%type.

Section Scheduled.
Context {K : Scalar}.

Definition scheduledBody (m1 : BVHModel K) (tf1 : Transform3d K)
                         (m2 : BVHModel K) (tf2 : Transform3d K)
                         (collision : bool) (turn : Turn) : outcome bool :=
  let '(tri1, tri2, seesFlag) := turn in
  if collision && seesFlag then Return collision       (* continue *)
  else
    found <- narrowBody m1 tf1 m2 tf2 tri1 tri2 false ;;
    Return (collision || found).

Definition runSchedule (m1 : BVHModel K) (tf1 : Transform3d K)
                       (m2 : BVHModel K) (tf2 : Transform3d K)
                       (schedule : list Turn) (collision : bool) : outcome bool :=
  for_each (scheduledBody m1 tf1 m2 tf2) schedule collision.

(** A schedule of the loop nest of two meshes runs every pair of
    triangles once. *)
Definition schedules (schedule : list Turn) (m1 m2 : BVHModel K) : Prop :=
  Permutation (map fst schedule) (list_prod (tri_indices m1) (tri_indices m2)).

(** The schedule of one thread: program order, every read of the flag up
    to date. *)
Definition programOrder (m1 m2 : BVHModel K) : list Turn :=
  map (fun pair => (pair, true)) (list_prod (tri_indices m1) (tri_indices m2)).

(** The query with its loop nest run under a schedule. *)
Definition AtayBayazitCollideUnder (schedule : list Turn)
                                   (m1 : BVHModel K) (tf1 : Transform3d K)
                                   (m2 : BVHModel K) (tf2 : Transform3d K)
  : outcome bool :=
  if negb (PrimitiveBroadPhase m1 tf1 m2 tf2) then Return false
  else runSchedule m1 tf1 m2 tf2 schedule false.

End Scheduled.
(* ================================================================= *)
(** ** Scanning for a minimum and a maximum *)

Section Scan.
Context {K : Scalar}.

Lemma std_min_cases (a b : K) : std_min a b = a \/ std_min a b = b.
Proof. unfold std_min. destruct (less b a); auto. Qed.

Lemma std_max_cases (a b : K) : std_max a b = a \/ std_max a b = b.
Proof. unfold std_max. destruct (less a b); auto. Qed.

Lemma scan_min_In (ps : list K) : forall p0, In (fold_left std_min ps p0) (p0 :: ps).
Proof.
  induction ps as [|p ps IH]; intros p0; simpl.
  - now left.
  - destruct (IH (std_min p0 p)) as [E | HI]; [|auto].
    destruct (std_min_cases p0 p) as [C | C]; rewrite C in *; auto.
Qed.

Lemma scan_max_In (ps : list K) : forall p0, In (fold_left std_max ps p0) (p0 :: ps).
Proof.
  induction ps as [|p ps IH]; intros p0; simpl.
  - now left.
  - destruct (IH (std_max p0 p)) as [E | HI]; [|auto].
    destruct (std_max_cases p0 p) as [C | C]; rewrite C in *; auto.
Qed.

Variable ordered : K -> Prop.
Hypothesis laws : OrderLaws K ordered.

Lemma less_asym (x y : K) : less x y = true -> less y x = false.
Proof.
  intros H. destruct (less y x) eqn:E; [|reflexivity].
  pose proof (less_trans laws _ _ _ H E) as T.
  rewrite (less_irrefl laws) in T. discriminate.
Qed.

(** Nothing that was below-or-level with the running minimum gets above
    the new one. *)
Lemma std_min_keeps (q m p : K) : less q m = false -> less q (std_min m p) = false.
Proof.
  intros H. unfold std_min. destruct (less p m) eqn:E; [|exact H].
  destruct (less q p) eqn:F; [|reflexivity].
  rewrite (less_trans laws _ _ _ F E) in H. discriminate.
Qed.

Lemma std_max_keeps (q m p : K) : less m q = false -> less (std_max m p) q = false.
Proof.
  intros H. unfold std_max. destruct (less m p) eqn:E; [|exact H].
  destruct (less p q) eqn:F; [|reflexivity].
  rewrite (less_trans laws _ _ _ E F) in H. discriminate.
Qed.

Lemma std_min_new (m p : K) : less p (std_min m p) = false.
Proof.
  unfold std_min. destruct (less p m) eqn:E; [apply (less_irrefl laws) | exact E].
Qed.

Lemma std_max_new (m p : K) : less (std_max m p) p = false.
Proof.
  unfold std_max. destruct (less m p) eqn:E; [apply (less_irrefl laws) | exact E].
Qed.

Lemma scan_min_keeps (ps : list K) :
  forall m q, less q m = false -> less q (fold_left std_min ps m) = false.
Proof.
  induction ps as [|p ps IH]; intros m q H; simpl; [exact H|].
  apply IH. now apply std_min_keeps.
Qed.

Lemma scan_max_keeps (ps : list K) :
  forall m q, less m q = false -> less (fold_left std_max ps m) q = false.
Proof.
  induction ps as [|p ps IH]; intros m q H; simpl; [exact H|].
  apply IH. now apply std_max_keeps.
Qed.

Lemma scan_min_lower (ps : list K) :
  forall p0 q, In q (p0 :: ps) -> less q (fold_left std_min ps p0) = false.
Proof.
  induction ps as [|p ps IH]; intros p0 q HI.
  - destruct HI as [<- | []]. apply (less_irrefl laws).
  - simpl. destruct HI as [<- | [<- | HI]].
    + apply scan_min_keeps, std_min_keeps, (less_irrefl laws).
    + apply scan_min_keeps, std_min_new.
    + apply IH. now right.
Qed.

Lemma scan_max_upper (ps : list K) :
  forall p0 q, In q (p0 :: ps) -> less (fold_left std_max ps p0) q = false.
Proof.
  induction ps as [|p ps IH]; intros p0 q HI.
  - destruct HI as [<- | []]. apply (less_irrefl laws).
  - simpl. destruct HI as [<- | [<- | HI]].
    + apply scan_max_keeps, std_max_keeps, (less_irrefl laws).
    + apply scan_max_keeps, std_max_new.
    + apply IH. now right.
Qed.

Lemma scan_min_least (ps : list K) (p0 : K) : least (fold_left std_min ps p0) (p0 :: ps).
Proof. split; [apply scan_min_In | intros p; apply scan_min_lower]. Qed.

Lemma scan_max_greatest (ps : list K) (p0 : K) :
  greatest (fold_left std_max ps p0) (p0 :: ps).
Proof. split; [apply scan_max_In | intros p; apply scan_max_upper]. Qed.

(** Two minima (or maxima) of the same ordered numbers are
    interchangeable in a comparison. *)
Lemma gap_transfer (ps qs : list K) (hi hi' lo lo' : K) :
  Forall ordered ps -> Forall ordered qs ->
  greatest hi ps -> greatest hi' ps -> least lo qs -> least lo' qs ->
  less hi lo = true -> less hi' lo' = true.
Proof.
  intros Op Oq [Hhi Uhi] [Hhi' Uhi'] [Hlo Llo] [Hlo' Llo'] G.
  destruct (less hi' lo') eqn:E; [reflexivity|].
  pose proof (proj1 (Forall_forall ordered ps) Op _ Hhi') as O1.
  pose proof (proj1 (Forall_forall ordered qs) Oq _ Hlo') as O2.
  pose proof (less_through laws hi hi' lo' O1 (Uhi _ Hhi') E) as S1.
  pose proof (less_through laws hi lo' lo O2 S1 (Llo _ Hlo')) as S2.
  congruence.
Qed.

End Scan.

(* ================================================================= *)
(** ** The axis-overlap test *)

Section AxisTest.
Context {K : Scalar}.

(** The two loops of [checkOverlapOnAxis] are a scan for the minimum
    and a scan for the maximum of the three projections. *)
Lemma projectOnAxis_scan (axis w0 w1 w2 : Vector3d K) :
  projectOnAxis axis (w0, w1, w2) =
  (fold_left std_min [dot axis w1; dot axis w2] (dot axis w0),
   fold_left std_max [dot axis w1; dot axis w2] (dot axis w0)).
Proof. reflexivity. Qed.

Lemma projectOnAxis_In (axis : Vector3d K) (W : Array3 K) :
  In (fst (projectOnAxis axis W)) (projections axis W) /\
  In (snd (projectOnAxis axis W)) (projections axis W).
Proof.
  destruct W as [[w0 w1] w2]. rewrite projectOnAxis_scan. split.
  - apply scan_min_In.
  - apply scan_max_In.
Qed.

(** The body of the function as one Boolean expression. *)
Lemma checkOverlapOnAxis_unfold (axis : Vector3d K) (U V : Array3 K) :
  checkOverlapOnAxis axis U V =
  less (squaredNorm axis) epsilon
  || negb (less (snd (projectOnAxis axis U)) (fst (projectOnAxis axis V))
           || less (snd (projectOnAxis axis V)) (fst (projectOnAxis axis U))).
Proof.
  unfold checkOverlapOnAxis.
  destruct (less (squaredNorm axis) epsilon); [reflexivity|].
  destruct (projectOnAxis axis U) as [minU maxU].
  destruct (projectOnAxis axis V) as [minV maxV]. simpl.
  destruct (less maxU minV || less maxV minU); reflexivity.
Qed.

(** The same as a proposition about the two scanned intervals. *)
Lemma checkOverlapOnAxis_scanned (axis : Vector3d K) (U V : Array3 K) :
  checkOverlapOnAxis axis U V = true <->
  less (squaredNorm axis) epsilon = true \/
  intervalsOverlap (fst (projectOnAxis axis U)) (snd (projectOnAxis axis U))
                   (fst (projectOnAxis axis V)) (snd (projectOnAxis axis V)).
Proof.
  rewrite checkOverlapOnAxis_unfold. unfold intervalsOverlap.
  rewrite orb_true_iff, negb_true_iff, <- orb_true_iff, not_true_iff_false.
  reflexivity.
Qed.

Lemma checkOverlapOnAxis_degenerate (axis : Vector3d K) (U V : Array3 K) :
  less (squaredNorm axis) epsilon = true -> checkOverlapOnAxis axis U V = true.
Proof. intros H. rewrite checkOverlapOnAxis_unfold, H. reflexivity. Qed.

(** Swapping the two triangles swaps the two disjuncts of the gap
    test. *)
Lemma checkOverlapOnAxis_swap (axis : Vector3d K) (U V : Array3 K) :
  checkOverlapOnAxis axis U V = checkOverlapOnAxis axis V U.
Proof.
  rewrite !checkOverlapOnAxis_unfold. f_equal. f_equal. apply orb_comm.
Qed.

(** A scan never leaves its maximum below its minimum; this needs
    nothing but [x < x] being false, so it holds for doubles, NaN
    included. *)
Lemma scan_no_inversion (irr : forall x : K, less x x = false) (ps : list K) :
  forall lo hi, less hi lo = false ->
    less (fold_left std_max ps hi) (fold_left std_min ps lo) = false.
Proof.
  induction ps as [|p ps IH]; intros lo hi H; simpl; [exact H|].
  apply IH. unfold std_min, std_max.
  destruct (less p lo) eqn:E1, (less hi p) eqn:E2; auto.
Qed.

Lemma projectOnAxis_no_inversion (irr : forall x : K, less x x = false)
      (axis : Vector3d K) (W : Array3 K) :
  less (snd (projectOnAxis axis W)) (fst (projectOnAxis axis W)) = false.
Proof.
  destruct W as [[w0 w1] w2]. rewrite projectOnAxis_scan.
  cbn [fst snd]. apply scan_no_inversion; auto.
Qed.

Lemma checkOverlapOnAxis_self (irr : forall x : K, less x x = false)
      (axis : Vector3d K) (W : Array3 K) :
  checkOverlapOnAxis axis W W = true.
Proof.
  rewrite checkOverlapOnAxis_unfold, projectOnAxis_no_inversion by exact irr.
  apply orb_true_r.
Qed.

Variable ordered : K -> Prop.
Hypothesis laws : OrderLaws K ordered.

Lemma projectOnAxis_least (axis : Vector3d K) (W : Array3 K) :
  least (fst (projectOnAxis axis W)) (projections axis W).
Proof.
  destruct W as [[w0 w1] w2]. rewrite projectOnAxis_scan.
  apply (scan_min_least laws).
Qed.

Lemma projectOnAxis_greatest (axis : Vector3d K) (W : Array3 K) :
  greatest (snd (projectOnAxis axis W)) (projections axis W).
Proof.
  destruct W as [[w0 w1] w2]. rewrite projectOnAxis_scan.
  apply (scan_max_greatest laws).
Qed.

(** A number that both triangles project to, and that compares with
    the others, keeps the two intervals from coming apart. *)
Lemma common_projection_no_gap (axis : Vector3d K) (U V : Array3 K) (p : K) :
  ordered p -> In p (projections axis U) -> In p (projections axis V) ->
  checkOverlapOnAxis axis U V = true.
Proof.
  intros Op HU HV. rewrite checkOverlapOnAxis_unfold.
  destruct (projectOnAxis_least axis U) as [_ LU].
  destruct (projectOnAxis_greatest axis U) as [_ GU].
  destruct (projectOnAxis_least axis V) as [_ LV].
  destruct (projectOnAxis_greatest axis V) as [_ GV].
  rewrite (less_through laws _ p _ Op (GU _ HU) (LV _ HV)).
  rewrite (less_through laws _ p _ Op (GV _ HV) (LU _ HU)).
  apply orb_true_r.
Qed.

End AxisTest.

(** C3.  [checkOverlapOnAxis] answers [true] whenever the squared norm of
    the axis is below the epsilon, whatever the triangles are.  For every
    number type it answers [true] exactly when the axis is degenerate in
    that sense or the two intervals [[min, max]] that its loops scan out of
    the projections overlap, touching included: not ([maxU < minV] or
    [maxV < minU]).  And for numbers that obey the laws of an order and
    projections that all compare ([ordered]), the scanned ends can be
    exchanged for any minimum and maximum of the three projections of each
    triangle.  Being a function of the embedding, it has no effect besides
    its result. *)
Theorem checkOverlapOnAxis_spec (K : Scalar) (axis : Vector3d K) (U V : Array3 K) :
  (less (squaredNorm axis) epsilon = true -> checkOverlapOnAxis axis U V = true) /\
  (checkOverlapOnAxis axis U V = true <->
   less (squaredNorm axis) epsilon = true \/
   intervalsOverlap (fst (projectOnAxis axis U)) (snd (projectOnAxis axis U))
                    (fst (projectOnAxis axis V)) (snd (projectOnAxis axis V))) /\
  (forall ordered : K -> Prop, OrderLaws K ordered ->
   Forall ordered (projections axis U) -> Forall ordered (projections axis V) ->
   forall loU hiU loV hiV : K,
     least loU (projections axis U) -> greatest hiU (projections axis U) ->
     least loV (projections axis V) -> greatest hiV (projections axis V) ->
     (checkOverlapOnAxis axis U V = true <->
      less (squaredNorm axis) epsilon = true \/ intervalsOverlap loU hiU loV hiV)).
Proof.
  split; [apply checkOverlapOnAxis_degenerate|].
  split; [apply checkOverlapOnAxis_scanned|].
  intros ordered laws OU OV loU hiU loV hiV LU GU LV GV.
  rewrite checkOverlapOnAxis_scanned.
  pose proof (projectOnAxis_least laws axis U) as LU'.
  pose proof (projectOnAxis_greatest laws axis U) as GU'.
  pose proof (projectOnAxis_least laws axis V) as LV'.
  pose proof (projectOnAxis_greatest laws axis V) as GV'.
  unfold intervalsOverlap.
  split; (intros [D | N]; [now left | right]); intros [G | G]; apply N.
  - left. exact (gap_transfer laws OU OV GU GU' LV LV' G).
  - right. exact (gap_transfer laws OV OU GV GV' LU LU' G).
  - left. exact (gap_transfer laws OU OV GU' GU LV' LV G).
  - right. exact (gap_transfer laws OV OU GV' GV LU' LU G).
Qed.

(* ================================================================= *)
(** ** The triangle-triangle test *)

Section Triangles.
Context {K : Scalar}.

(** The early returns and the two nested loops visit the candidate axes
    in order and stop at the first that fails. *)
Lemma TriTriIntersect_forallb (U0 U1 U2 V0 V1 V2 : Vector3d K) :
  TriTriIntersect U0 U1 U2 V0 V1 V2 =
  forallb (fun axis => checkOverlapOnAxis axis (U0, U1, U2) (V0, V1, V2))
          (candidateAxes (U0, U1, U2) (V0, V1, V2)).
Proof.
  unfold TriTriIntersect, candidateAxes, faceNormal, edgeVectors, edges.
  cbn [at3 seq forallb flat_map map app].
  destruct (checkOverlapOnAxis (cross (vsub U1 U0) (vsub U2 U1)) _ _);
    [|reflexivity].
  destruct (checkOverlapOnAxis (cross (vsub V1 V0) (vsub V2 V1)) _ _);
    [|reflexivity].
  cbn [negb andb].
  repeat (destruct (checkOverlapOnAxis _ _ _); [cbn [andb] | reflexivity]).
  reflexivity.
Qed.

Lemma candidateAxes_length (A B : Array3 K) : length (candidateAxes A B) = 11.
Proof. destruct A as [[a0 a1] a2], B as [[b0 b1] b2]. reflexivity. Qed.

Lemma forallb_false_exists {A : Type} (f : A -> bool) (l : list A) :
  forallb f l = false <-> exists x, In x l /\ f x = false.
Proof.
  induction l as [|a l IH]; simpl.
  - split; [discriminate | intros [x [[] _]]].
  - rewrite andb_false_iff, IH. split.
    + intros [H | [x [HI Hx]]]; [exists a | exists x]; auto.
    + intros [x [[<- | HI] Hx]]; [now left | right; now exists x].
Qed.

Lemma TriTriIntersect_reflexive (irr : forall x : K, less x x = false)
      (W0 W1 W2 : Vector3d K) :
  TriTriIntersect W0 W1 W2 W0 W1 W2 = true.
Proof.
  rewrite TriTriIntersect_forallb. apply forallb_forall.
  intros axis _. now apply checkOverlapOnAxis_self.
Qed.

(** The common vertex keeps every axis from separating. *)
Lemma common_vertex_no_gap (ordered : K -> Prop) (laws : OrderLaws K ordered)
      (axis U0 U1 U2 V0 V1 V2 P : Vector3d K) :
  In P [U0; U1; U2] -> In P [V0; V1; V2] -> ordered (dot axis P) ->
  checkOverlapOnAxis axis (U0, U1, U2) (V0, V1, V2) = true.
Proof.
  intros HU HV Hord.
  apply (common_projection_no_gap laws axis _ _ (dot axis P) Hord).
  - unfold projections. simpl in HU |- *.
    destruct HU as [<- | [<- | [<- | []]]]; auto.
  - unfold projections. simpl in HV |- *.
    destruct HV as [<- | [<- | [<- | []]]]; auto.
Qed.

End Triangles.

(** C2.  The candidate axes of two triangles are eleven: the face normal
    of each (the cross product of its first two edges) and the nine cross
    products of an edge of the first with an edge of the second.
    [TriTriIntersect] returns [false] exactly when at least one of them
    fails the axis-overlap test, and [true] when all of them pass. *)
Theorem TriTriIntersect_eleven_axes (K : Scalar) (U0 U1 U2 V0 V1 V2 : Vector3d K) :
  let U := (U0, U1, U2) in
  let V := (V0, V1, V2) in
  candidateAxes U V =
    [ cross (vsub U1 U0) (vsub U2 U1); cross (vsub V1 V0) (vsub V2 V1);
      cross (vsub U1 U0) (vsub V1 V0); cross (vsub U1 U0) (vsub V2 V1);
      cross (vsub U1 U0) (vsub V0 V2);
      cross (vsub U2 U1) (vsub V1 V0); cross (vsub U2 U1) (vsub V2 V1);
      cross (vsub U2 U1) (vsub V0 V2);
      cross (vsub U0 U2) (vsub V1 V0); cross (vsub U0 U2) (vsub V2 V1);
      cross (vsub U0 U2) (vsub V0 V2) ] /\
  (TriTriIntersect U0 U1 U2 V0 V1 V2 = false <->
   exists axis, In axis (candidateAxes U V) /\ checkOverlapOnAxis axis U V = false) /\
  ((forall axis, In axis (candidateAxes U V) -> checkOverlapOnAxis axis U V = true) ->
   TriTriIntersect U0 U1 U2 V0 V1 V2 = true).
Proof.
  intros U V. split; [reflexivity|].
  unfold U, V. rewrite TriTriIntersect_forallb. split.
  - apply forallb_false_exists.
  - intros H. apply forallb_forall. exact H.
Qed.

(** C10.  A triangle always intersects itself, degenerate or not: on
    every candidate axis the two projected intervals are the same
    interval, whose maximum is never below its minimum, so no gap is ever
    reported.  The only law of the numbers that this uses is that no
    number is below itself; it holds for doubles, NaN included. *)
Theorem TriTriIntersect_self (K : Scalar) (irr : forall x : K, less x x = false)
        (W0 W1 W2 : Vector3d K) :
  TriTriIntersect W0 W1 W2 W0 W1 W2 = true /\
  forall axis : Vector3d K,
    less (snd (projectOnAxis axis (W0, W1, W2))) (fst (projectOnAxis axis (W0, W1, W2)))
      = false /\
    checkOverlapOnAxis axis (W0, W1, W2) (W0, W1, W2) = true.
Proof.
  split.
  - now apply TriTriIntersect_reflexive.
  - intros axis. split.
    + now apply projectOnAxis_no_inversion.
    + now apply checkOverlapOnAxis_self.
Qed.

(** C9, as the code has it.  Two triangles with a vertex in common
    intersect, whatever else they do (in particular when that vertex is
    all they share), provided that the projections of the common vertex
    on the candidate axes compare with the other numbers: always in exact
    arithmetic, and for doubles when they are not NaN.  On each candidate
    axis the common vertex then projects into both intervals. *)
Theorem TriTriIntersect_shared_vertex (K : Scalar) (ordered : K -> Prop)
        (laws : OrderLaws K ordered) (U0 U1 U2 V0 V1 V2 P : Vector3d K) :
  In P [U0; U1; U2] -> In P [V0; V1; V2] ->
  (forall axis, In axis (candidateAxes (U0, U1, U2) (V0, V1, V2)) -> ordered (dot axis P)) ->
  TriTriIntersect U0 U1 U2 V0 V1 V2 = true.
Proof.
  intros HU HV Hord.
  rewrite TriTriIntersect_forallb. apply forallb_forall.
  intros axis Hax.
  apply (common_vertex_no_gap laws axis HU HV).
  apply Hord, Hax.
Qed.

(** C9 as stated fails on doubles.  The two triangles below have the
    origin in common and nothing else: the other two vertices of the first
    have [x > 0], those of the second [x < 0].  The cross product of their
    long edges overflows to [(infinity, 0, 0)]; on that axis the origin
    projects to NaN, which both scans skip, and the rest projects to
    [+infinity] for one triangle and [-infinity] for the other: a gap. *)
Lemma TriTriIntersect_shared_vertex_counterexample :
  at3 hugeU64 2 = vec64 0 0 0 /\ at3 hugeV64 2 = vec64 0 0 0 /\
  PrimFloat.ltb 0 (vx (at3 hugeU64 0)) = true /\
  PrimFloat.ltb 0 (vx (at3 hugeU64 1)) = true /\
  PrimFloat.ltb (vx (at3 hugeV64 0)) 0 = true /\
  PrimFloat.ltb (vx (at3 hugeV64 1)) 0 = true /\
  cross (vsub (at3 hugeU64 1) (at3 hugeU64 0)) (vsub (at3 hugeV64 1) (at3 hugeV64 0))
    = vec64 infinity 0 0 /\
  projectOnAxis (vec64 infinity 0 0) hugeU64 = (infinity, infinity) /\
  projectOnAxis (vec64 infinity 0 0) hugeV64 = (neg_infinity, neg_infinity) /\
  TriTriIntersect (at3 hugeU64 0) (at3 hugeU64 1) (at3 hugeU64 2)
                  (at3 hugeV64 0) (at3 hugeV64 1) (at3 hugeV64 2) = false.
Proof. repeat split; vm_compute; reflexivity. Qed.

(* ================================================================= *)
(** ** The broad phase *)

Section BroadPhase.
Context {K : Scalar}.

Lemma grow_coord (tf : Transform3d K) (lo hi p : Vector3d K) (i : nat) :
  coord (fst (grow tf (lo, hi) p)) i = std_min (coord lo i) (coord (transform tf p) i) /\
  coord (snd (grow tf (lo, hi) p)) i = std_max (coord hi i) (coord (transform tf p) i).
Proof. destruct i as [|[|i]]; split; reflexivity. Qed.

Lemma grow_fold_coord (tf : Transform3d K) (i : nat) (rest : list (Vector3d K)) :
  forall box,
    coord (fst (fold_left (grow tf) rest box)) i =
      fold_left std_min (coordinates i (map (transform tf) rest)) (coord (fst box) i) /\
    coord (snd (fold_left (grow tf) rest box)) i =
      fold_left std_max (coordinates i (map (transform tf) rest)) (coord (snd box) i).
Proof.
  induction rest as [|p rest IH]; intros [lo hi]; [split; reflexivity|].
  cbn [fold_left map coordinates].
  destruct (IH (grow tf (lo, hi) p)) as [E1 E2].
  destruct (grow_coord tf lo hi p i) as [G1 G2].
  rewrite E1, E2, G1, G2. split; reflexivity.
Qed.

(** Each coordinate of the two corners comes from a scan over that
    coordinate of the world-space vertices. *)
Lemma boundingBox_coord (tf : Transform3d K) (v0 : Vector3d K)
      (rest : list (Vector3d K)) (i : nat) :
  coord (fst (boundingBox tf v0 rest)) i =
    fold_left std_min (coordinates i (map (transform tf) rest))
              (coord (transform tf v0) i) /\
  coord (snd (boundingBox tf v0 rest)) i =
    fold_left std_max (coordinates i (map (transform tf) rest))
              (coord (transform tf v0) i).
Proof. unfold boundingBox. apply (grow_fold_coord tf i rest). Qed.

(** The three [if]s on x, y and z. *)
Lemma PrimitiveBroadPhase_unfold (m1 m2 : BVHModel K) (tf1 tf2 : Transform3d K)
      (a0 b0 : Vector3d K) (rest1 rest2 : list (Vector3d K)) :
  vertices m1 = a0 :: rest1 -> vertices m2 = b0 :: rest2 ->
  PrimitiveBroadPhase m1 tf1 m2 tf2 =
  forallb (fun i => negb (axisGap (boundingBox tf1 a0 rest1) (boundingBox tf2 b0 rest2) i))
          (seq 0 3).
Proof.
  intros E1 E2. unfold PrimitiveBroadPhase, axisGap. rewrite E1, E2.
  destruct (boundingBox tf1 a0 rest1) as [min1 max1].
  destruct (boundingBox tf2 b0 rest2) as [min2 max2].
  cbn [seq forallb coord fst snd].
  destruct (less (vx max1) (vx min2) || less (vx max2) (vx min1)); [reflexivity|].
  destruct (less (vy max1) (vy min2) || less (vy max2) (vy min1)); [reflexivity|].
  destruct (less (vz max1) (vz min2) || less (vz max2) (vz min1)); reflexivity.
Qed.

Lemma PrimitiveBroadPhase_scanned (m1 m2 : BVHModel K) (tf1 tf2 : Transform3d K)
      (a0 b0 : Vector3d K) (rest1 rest2 : list (Vector3d K)) :
  vertices m1 = a0 :: rest1 -> vertices m2 = b0 :: rest2 ->
  (PrimitiveBroadPhase m1 tf1 m2 tf2 = true <->
   forall i, i < 3 ->
     intervalsOverlap (coord (fst (boundingBox tf1 a0 rest1)) i)
                      (coord (snd (boundingBox tf1 a0 rest1)) i)
                      (coord (fst (boundingBox tf2 b0 rest2)) i)
                      (coord (snd (boundingBox tf2 b0 rest2)) i)).
Proof.
  intros E1 E2. rewrite (PrimitiveBroadPhase_unfold m1 m2 tf1 tf2 E1 E2), forallb_forall.
  unfold axisGap, intervalsOverlap. split.
  - intros H i Hi. specialize (H i). rewrite in_seq, negb_true_iff in H.
    rewrite <- orb_true_iff, not_true_iff_false. apply H. lia.
  - intros H i Hi. apply in_seq in Hi. rewrite negb_true_iff.
    rewrite <- not_true_iff_false, orb_true_iff. apply H. lia.
Qed.

Lemma PrimitiveBroadPhase_no_vertices (m1 m2 : BVHModel K) (tf1 tf2 : Transform3d K) :
  num_vertices m1 = 0 \/ num_vertices m2 = 0 -> PrimitiveBroadPhase m1 tf1 m2 tf2 = false.
Proof.
  unfold num_vertices, PrimitiveBroadPhase.
  destruct (vertices m1) as [|a0 r1], (vertices m2) as [|b0 r2]; simpl;
    intros [H | H]; try discriminate; reflexivity.
Qed.

(** The triangle buffers play no part in the broad phase. *)
Lemma PrimitiveBroadPhase_ignores_triangles
      (vs1 vs2 : list (Vector3d K)) (ts1 ts1' ts2 ts2' : list Triangle)
      (tf1 tf2 : Transform3d K) :
  PrimitiveBroadPhase (Model vs1 ts1) tf1 (Model vs2 ts2) tf2 =
  PrimitiveBroadPhase (Model vs1 ts1') tf1 (Model vs2 ts2') tf2.
Proof. reflexivity. Qed.

Lemma PrimitiveBroadPhase_swap (m1 m2 : BVHModel K) (tf1 tf2 : Transform3d K) :
  PrimitiveBroadPhase m1 tf1 m2 tf2 = PrimitiveBroadPhase m2 tf2 m1 tf1.
Proof.
  unfold PrimitiveBroadPhase.
  destruct (vertices m1) as [|a0 r1], (vertices m2) as [|b0 r2]; try reflexivity.
  destruct (boundingBox tf1 a0 r1) as [min1 max1].
  destruct (boundingBox tf2 b0 r2) as [min2 max2].
  rewrite (orb_comm (less (vx max1) (vx min2))), (orb_comm (less (vy max1) (vy min2))),
          (orb_comm (less (vz max1) (vz min2))).
  reflexivity.
Qed.

End BroadPhase.

(** C4.  [PrimitiveBroadPhase] returns [false] at once when either mesh
    has no vertices.  Otherwise, for every number type, it returns [true]
    exactly when the two boxes that its loops scan out of the world-space
    vertices overlap on each of the three axes, touching included: on no
    axis [max1 < min2] or [max2 < min1].  And for numbers that obey the
    laws of an order and world-space coordinates that all compare, the
    scanned corners can be exchanged for any corners [min] and [max] that
    hold, per axis, a minimum and a maximum of that coordinate over all
    the world-space vertices of the mesh. *)
Theorem PrimitiveBroadPhase_spec (K : Scalar)
        (m1 : BVHModel K) (tf1 : Transform3d K) (m2 : BVHModel K) (tf2 : Transform3d K) :
  (num_vertices m1 = 0 \/ num_vertices m2 = 0 ->
   PrimitiveBroadPhase m1 tf1 m2 tf2 = false) /\
  (forall (a0 b0 : Vector3d K) (rest1 rest2 : list (Vector3d K)),
   vertices m1 = a0 :: rest1 -> vertices m2 = b0 :: rest2 ->
   (PrimitiveBroadPhase m1 tf1 m2 tf2 = true <->
    forall i, i < 3 ->
      intervalsOverlap (coord (fst (boundingBox tf1 a0 rest1)) i)
                       (coord (snd (boundingBox tf1 a0 rest1)) i)
                       (coord (fst (boundingBox tf2 b0 rest2)) i)
                       (coord (snd (boundingBox tf2 b0 rest2)) i))) /\
  (forall ordered : K -> Prop, OrderLaws K ordered ->
   num_vertices m1 <> 0 -> num_vertices m2 <> 0 ->
   (forall i, i < 3 ->
      Forall ordered (coordinates i (worldVertices m1 tf1)) /\
      Forall ordered (coordinates i (worldVertices m2 tf2))) ->
   forall min1 max1 min2 max2 : Vector3d K,
     (forall i, i < 3 ->
        least (coord min1 i) (coordinates i (worldVertices m1 tf1)) /\
        greatest (coord max1 i) (coordinates i (worldVertices m1 tf1)) /\
        least (coord min2 i) (coordinates i (worldVertices m2 tf2)) /\
        greatest (coord max2 i) (coordinates i (worldVertices m2 tf2))) ->
     (PrimitiveBroadPhase m1 tf1 m2 tf2 = true <->
      forall i, i < 3 ->
        intervalsOverlap (coord min1 i) (coord max1 i) (coord min2 i) (coord max2 i))).
Proof.
  split; [apply PrimitiveBroadPhase_no_vertices|].
  split; [intros a0 b0 r1 r2; apply PrimitiveBroadPhase_scanned|].
  intros ordered laws N1 N2 Ord min1 max1 min2 max2 Corners.
  unfold num_vertices, worldVertices in *.
  destruct (vertices m1) as [|a0 r1] eqn:E1; [now elim N1|].
  destruct (vertices m2) as [|b0 r2] eqn:E2; [now elim N2|].
  rewrite (PrimitiveBroadPhase_scanned m1 m2 tf1 tf2 E1 E2).
  assert (Step : forall i, i < 3 ->
            intervalsOverlap (coord (fst (boundingBox tf1 a0 r1)) i)
                             (coord (snd (boundingBox tf1 a0 r1)) i)
                             (coord (fst (boundingBox tf2 b0 r2)) i)
                             (coord (snd (boundingBox tf2 b0 r2)) i) <->
            intervalsOverlap (coord min1 i) (coord max1 i) (coord min2 i) (coord max2 i)).
  { intros i Hi.
    destruct (Ord i Hi) as [O1 O2].
    destruct (Corners i Hi) as (L1 & G1 & L2 & G2).
    destruct (boundingBox_coord tf1 a0 r1 i) as [Elo1 Ehi1].
    destruct (boundingBox_coord tf2 b0 r2 i) as [Elo2 Ehi2].
    pose proof (scan_min_least laws (coordinates i (map (transform tf1) r1))
                  (coord (transform tf1 a0) i)) as L1'.
    pose proof (scan_max_greatest laws (coordinates i (map (transform tf1) r1))
                  (coord (transform tf1 a0) i)) as G1'.
    pose proof (scan_min_least laws (coordinates i (map (transform tf2) r2))
                  (coord (transform tf2 b0) i)) as L2'.
    pose proof (scan_max_greatest laws (coordinates i (map (transform tf2) r2))
                  (coord (transform tf2 b0) i)) as G2'.
    rewrite <- Elo1 in L1'. rewrite <- Ehi1 in G1'.
    rewrite <- Elo2 in L2'. rewrite <- Ehi2 in G2'.
    unfold intervalsOverlap.
    split; intros N [G | G]; apply N.
    - left. exact (gap_transfer laws O1 O2 G1 G1' L2 L2' G).
    - right. exact (gap_transfer laws O2 O1 G2 G2' L1 L1' G).
    - left. exact (gap_transfer laws O1 O2 G1' G1 L2' L2 G).
    - right. exact (gap_transfer laws O2 O1 G2' G2 L1' L1 G). }
  split; intros H i Hi; apply (Step i Hi), H, Hi.
Qed.

(* ================================================================= *)
(** ** The narrow phase and the facade *)

Section Facade.
Context {K : Scalar}.
Variables (m1 : BVHModel K) (tf1 : Transform3d K).
Variables (m2 : BVHModel K) (tf2 : Transform3d K).

Lemma worldVertex_Return (m : BVHModel K) (tf : Transform3d K) (i : nat) (v : Vector3d K) :
  nth_error (vertices m) i = Some v -> worldVertex m tf i = Return (transform tf v).
Proof. unfold worldVertex. now intros ->. Qed.

Lemma worldVertex_Undefined (m : BVHModel K) (tf : Transform3d K) (i : nat) :
  nth_error (vertices m) i = None -> worldVertex m tf i = Undefined.
Proof. unfold worldVertex. now intros ->. Qed.

Lemma worldVertex_no_Throw (m : BVHModel K) (tf : Transform3d K) (i : nat) (e : exn) :
  worldVertex m tf i <> Throw e.
Proof. unfold worldVertex. destruct (nth_error _ _); discriminate. Qed.

Lemma inBounds_worldTriangle (m : BVHModel K) (tf : Transform3d K) (t : Triangle) :
  inBounds m t <-> exists W, worldTriangle m tf t = Some W.
Proof.
  unfold inBounds, worldTriangle, num_vertices. split.
  - intros (H0 & H1 & H2).
    apply nth_error_Some in H0, H1, H2.
    destruct (nth_error (vertices m) (vid0 t)); [|now elim H0].
    destruct (nth_error (vertices m) (vid1 t)); [|now elim H1].
    destruct (nth_error (vertices m) (vid2 t)); [|now elim H2].
    eauto.
  - intros [W H].
    destruct (nth_error (vertices m) (vid0 t)) eqn:E0; [|discriminate].
    destruct (nth_error (vertices m) (vid1 t)) eqn:E1; [|discriminate].
    destruct (nth_error (vertices m) (vid2 t)) eqn:E2; [|discriminate].
    repeat split; apply nth_error_Some; congruence.
Qed.

(** Once the flag is up the body does nothing. *)
Lemma narrowBody_flagged (t1 t2 : Triangle) :
  narrowBody m1 tf1 m2 tf2 t1 t2 true = Return true.
Proof. reflexivity. Qed.

(** With all six indices in bounds the body raises the flag on a hit
    and leaves it alone otherwise. *)
Lemma narrowBody_inBounds (t1 t2 : Triangle) (c : bool) :
  inBounds m1 t1 -> inBounds m2 t2 ->
  narrowBody m1 tf1 m2 tf2 t1 t2 c = Return (c || hit m1 tf1 m2 tf2 t1 t2).
Proof.
  intros B1 B2. destruct c; [reflexivity|].
  unfold narrowBody, hit, worldTriangle, worldVertex.
  destruct B1 as (A0 & A1 & A2), B2 as (B0 & B1 & B2).
  unfold num_vertices in *. apply nth_error_Some in A0, A1, A2, B0, B1, B2.
  destruct (nth_error (vertices m1) (vid0 t1)); [|now elim A0].
  destruct (nth_error (vertices m1) (vid1 t1)); [|now elim A1].
  destruct (nth_error (vertices m1) (vid2 t1)); [|now elim A2].
  destruct (nth_error (vertices m2) (vid0 t2)); [|now elim B0].
  destruct (nth_error (vertices m2) (vid1 t2)); [|now elim B1].
  destruct (nth_error (vertices m2) (vid2 t2)); [|now elim B2].
  cbn [bind orb]. destruct (TriTriIntersect _ _ _ _ _ _); reflexivity.
Qed.

(** With an index out of bounds, and the flag still down, the body
    reads past the end of a vertex buffer. *)
Lemma narrowBody_outOfBounds (t1 t2 : Triangle) :
  ~ inBounds m1 t1 \/ ~ inBounds m2 t2 ->
  narrowBody m1 tf1 m2 tf2 t1 t2 false = Undefined.
Proof.
  intros H. unfold narrowBody, worldVertex.
  destruct (nth_error (vertices m1) (vid0 t1)) eqn:A0; [|reflexivity].
  destruct (nth_error (vertices m1) (vid1 t1)) eqn:A1; [|reflexivity].
  destruct (nth_error (vertices m1) (vid2 t1)) eqn:A2; [|reflexivity].
  destruct (nth_error (vertices m2) (vid0 t2)) eqn:B0; [|reflexivity].
  destruct (nth_error (vertices m2) (vid1 t2)) eqn:B1; [|reflexivity].
  destruct (nth_error (vertices m2) (vid2 t2)) eqn:B2; [|reflexivity].
  exfalso. unfold inBounds, num_vertices in H.
  destruct H as [H | H]; apply H; repeat split; apply nth_error_Some; congruence.
Qed.

Lemma narrowBody_no_Throw (t1 t2 : Triangle) (c : bool) (e : exn) :
  narrowBody m1 tf1 m2 tf2 t1 t2 c <> Throw e.
Proof.
  destruct c; [discriminate|].
  unfold narrowBody, worldVertex.
  repeat (destruct (nth_error _ _); [cbn [bind] | discriminate]).
  discriminate.
Qed.


Lemma innerLoop_flagged (t1 : Triangle) (l2 : list Triangle) :
  innerLoop m1 tf1 m2 tf2 t1 l2 true = Return true.
Proof. induction l2 as [|t2 l2 IH]; [reflexivity | exact IH]. Qed.

Lemma outerLoop_flagged (l1 l2 : list Triangle) : outerLoop m1 tf1 m2 tf2 l1 l2 true = Return true.
Proof.
  induction l1 as [|t1 l1 IH]; [reflexivity|].
  unfold outerLoop in *. cbn [for_each]. rewrite innerLoop_flagged. exact IH.
Qed.

Lemma outerLoop_nothing_to_pair (l1 : list Triangle) (c : bool) :
  outerLoop m1 tf1 m2 tf2 l1 [] c = Return c.
Proof. induction l1 as [|t1 l1 IH]; [reflexivity | exact IH]. Qed.

Lemma innerLoop_inBounds (t1 : Triangle) (l2 : list Triangle) :
  inBounds m1 t1 -> Forall (inBounds m2) l2 ->
  forall c, innerLoop m1 tf1 m2 tf2 t1 l2 c = Return (c || existsb (hit m1 tf1 m2 tf2 t1) l2).
Proof.
  intros B1 B2. induction B2 as [|t2 l2 Bt2 B2 IH]; intros c.
  - simpl. now rewrite orb_false_r.
  - unfold innerLoop in *. cbn [for_each existsb].
    rewrite (narrowBody_inBounds c B1 Bt2). cbn [bind].
    rewrite IH. now rewrite orb_assoc.
Qed.

Lemma outerLoop_inBounds (l1 l2 : list Triangle) :
  Forall (inBounds m1) l1 -> Forall (inBounds m2) l2 ->
  forall c,
    outerLoop m1 tf1 m2 tf2 l1 l2 c =
    Return (c || existsb (fun t1 => existsb (hit m1 tf1 m2 tf2 t1) l2) l1).
Proof.
  intros B1 B2. induction B1 as [|t1 l1 Bt1 B1 IH]; intros c.
  - simpl. now rewrite orb_false_r.
  - unfold outerLoop in *. cbn [for_each existsb].
    rewrite (innerLoop_inBounds Bt1 B2). cbn [bind].
    rewrite IH. now rewrite orb_assoc.
Qed.

Lemma innerLoop_no_Throw (t1 : Triangle) (l2 : list Triangle) (e : exn) :
  forall c, innerLoop m1 tf1 m2 tf2 t1 l2 c <> Throw e.
Proof.
  induction l2 as [|t2 l2 IH]; intros c; [discriminate|].
  unfold innerLoop in *. cbn [for_each].
  pose proof (@narrowBody_no_Throw t1 t2 c e) as N.
  destruct (narrowBody m1 tf1 m2 tf2 t1 t2 c); cbn [bind];
    [apply IH | congruence | discriminate].
Qed.

Lemma outerLoop_no_Throw (l1 l2 : list Triangle) (e : exn) :
  forall c, outerLoop m1 tf1 m2 tf2 l1 l2 c <> Throw e.
Proof.
  induction l1 as [|t1 l1 IH]; intros c; [discriminate|].
  unfold outerLoop in *. cbn [for_each].
  pose proof (@innerLoop_no_Throw t1 l2 e c) as N.
  destruct (innerLoop m1 tf1 m2 tf2 t1 l2 c); cbn [bind]; [apply IH | congruence | discriminate].
Qed.

Lemma inBounds_dec (m : BVHModel K) (t : Triangle) : {inBounds m t} + {~ inBounds m t}.
Proof.
  unfold inBounds.
  destruct (lt_dec (vid0 t) (num_vertices m)); [|right; tauto].
  destruct (lt_dec (vid1 t) (num_vertices m)); [|right; tauto].
  destruct (lt_dec (vid2 t) (num_vertices m)); [left | right]; tauto.
Qed.

Lemma hit_true (t1 t2 : Triangle) :
  hit m1 tf1 m2 tf2 t1 t2 = true <->
  exists U0 U1 U2 V0 V1 V2,
    worldTriangle m1 tf1 t1 = Some (U0, U1, U2) /\
    worldTriangle m2 tf2 t2 = Some (V0, V1, V2) /\
    TriTriIntersect U0 U1 U2 V0 V1 V2 = true.
Proof.
  unfold hit. split.
  - destruct (worldTriangle m1 tf1 t1) as [[[U0 U1] U2]|]; [|discriminate].
    destruct (worldTriangle m2 tf2 t2) as [[[V0 V1] V2]|]; [|discriminate].
    intros H. exists U0, U1, U2, V0, V1, V2. auto.
  - intros (U0 & U1 & U2 & V0 & V1 & V2 & -> & -> & H). exact H.
Qed.

Lemma existsb_hit_pair (l1 l2 : list Triangle) :
  existsb (fun t1 => existsb (hit m1 tf1 m2 tf2 t1) l2) l1 = true <->
  exists i j t1 t2,
    nth_error l1 i = Some t1 /\ nth_error l2 j = Some t2 /\
    hit m1 tf1 m2 tf2 t1 t2 = true.
Proof.
  rewrite existsb_exists. split.
  - intros (t1 & I1 & H). apply existsb_exists in H. destruct H as (t2 & I2 & H).
    apply In_nth_error in I1, I2. destruct I1 as [i I1], I2 as [j I2].
    exists i, j, t1, t2. auto.
  - intros (i & j & t1 & t2 & I1 & I2 & H). exists t1. split.
    + eapply nth_error_In; eauto.
    + apply existsb_exists. exists t2. split; [eapply nth_error_In; eauto | exact H].
Qed.

End Facade.

(** C1.  When [PrimitiveBroadPhase] returns [false] the facade returns
    [false], whatever the triangle buffers hold: no triangle pair is
    looked at.  When it returns [true], and the indices of both meshes
    are in bounds, the facade returns a Boolean that is [true] exactly
    when some triangle [i] of the first mesh and some triangle [j] of the
    second, each taken to world space by its mesh's transform, pass
    [TriTriIntersect]. *)
Theorem AtayBayazitCollide_spec (K : Scalar)
        (m1 : BVHModel K) (tf1 : Transform3d K) (m2 : BVHModel K) (tf2 : Transform3d K) :
  (PrimitiveBroadPhase m1 tf1 m2 tf2 = false ->
   AtayBayazitCollide m1 tf1 m2 tf2 = Return false /\
   forall ts1 ts2 : list Triangle,
     AtayBayazitCollide (Model (vertices m1) ts1) tf1 (Model (vertices m2) ts2) tf2
     = Return false) /\
  (PrimitiveBroadPhase m1 tf1 m2 tf2 = true -> wellFormed m1 -> wellFormed m2 ->
   exists b : bool,
     AtayBayazitCollide m1 tf1 m2 tf2 = Return b /\
     (b = true <->
      exists i j, i < num_tris m1 /\ j < num_tris m2 /\ pairIntersects m1 tf1 m2 tf2 i j)).
Proof.
  split.
  - intros H. split.
    + unfold AtayBayazitCollide. now rewrite H.
    + intros ts1 ts2. unfold AtayBayazitCollide.
      destruct m1 as [vs1 ts1'], m2 as [vs2 ts2']. cbn [vertices].
      rewrite (PrimitiveBroadPhase_ignores_triangles vs1 vs2 ts1 ts1' ts2 ts2'), H.
      reflexivity.
  - intros H W1 W2. unfold AtayBayazitCollide, narrowPhase. rewrite H. cbn [negb].
    rewrite (outerLoop_inBounds tf1 tf2 W1 W2). cbn [orb].
    eexists. split; [reflexivity|].
    rewrite existsb_hit_pair. unfold pairIntersects, num_tris. split.
    + intros (i & j & t1 & t2 & I1 & I2 & Hit). exists i, j.
      split; [apply nth_error_Some; congruence|].
      split; [apply nth_error_Some; congruence|].
      apply hit_true in Hit.
      destruct Hit as (U0 & U1 & U2 & V0 & V1 & V2 & E1 & E2 & T).
      exists t1, t2, U0, U1, U2, V0, V1, V2. auto.
    + intros (i & j & _ & _ & t1 & t2 & U0 & U1 & U2 & V0 & V1 & V2 & I1 & I2 & E1 & E2 & T).
      exists i, j, t1, t2. repeat split; auto.
      apply hit_true. exists U0, U1, U2, V0, V1, V2. auto.
Qed.

(** C7.  If either mesh has no triangles the query returns [false],
    whatever the vertices, the other mesh and the transforms are. *)
Theorem AtayBayazitCollide_no_triangles (K : Scalar)
        (m1 : BVHModel K) (tf1 : Transform3d K) (m2 : BVHModel K) (tf2 : Transform3d K) :
  num_tris m1 = 0 \/ num_tris m2 = 0 ->
  AtayBayazitCollide m1 tf1 m2 tf2 = Return false.
Proof.
  intros H. unfold AtayBayazitCollide, narrowPhase, num_tris in *.
  destruct (PrimitiveBroadPhase m1 tf1 m2 tf2); [|reflexivity]. cbn [negb].
  destruct H as [H | H]; apply length_zero_iff_nil in H; rewrite H.
  - reflexivity.
  - apply outerLoop_nothing_to_pair.
Qed.

(** C6, as the code has it.  [PrimitiveBroadPhase] returns [false]
    whenever either mesh has no vertices.  The triangle buffers play no
    part in it: exchanging them for any others, empty ones included,
    leaves its answer unchanged, so a mesh that has vertices but no
    triangles is not rejected for that. *)
Theorem PrimitiveBroadPhase_vacuous (K : Scalar)
        (m1 : BVHModel K) (tf1 : Transform3d K) (m2 : BVHModel K) (tf2 : Transform3d K) :
  (num_vertices m1 = 0 \/ num_vertices m2 = 0 ->
   PrimitiveBroadPhase m1 tf1 m2 tf2 = false) /\
  (forall ts1 ts2 : list Triangle,
     PrimitiveBroadPhase (Model (vertices m1) ts1) tf1 (Model (vertices m2) ts2) tf2 =
     PrimitiveBroadPhase m1 tf1 m2 tf2).
Proof.
  split; [apply PrimitiveBroadPhase_no_vertices|].
  intros ts1 ts2. destruct m1 as [vs1 ts1'], m2 as [vs2 ts2']. reflexivity.
Qed.

(** C6 as stated fails: a mesh of one vertex and no triangle, paired with
    itself under the identity, passes the broad phase. *)
Lemma PrimitiveBroadPhase_vacuous_counterexample :
  num_tris loneVertex64 = 0 /\
  PrimitiveBroadPhase loneVertex64 identity64 loneVertex64 identity64 = true.
Proof. split; vm_compute; reflexivity. Qed.

(** Hence no mesh without triangles is rejected for that alone. *)
Lemma PrimitiveBroadPhase_not_vacuous_on_triangles :
  ~ (forall (K : Scalar) (m1 : BVHModel K) (tf1 : Transform3d K)
            (m2 : BVHModel K) (tf2 : Transform3d K),
       num_tris m1 = 0 \/ num_vertices m1 = 0 \/ num_tris m2 = 0 \/ num_vertices m2 = 0 ->
       PrimitiveBroadPhase m1 tf1 m2 tf2 = false).
Proof.
  intros H.
  assert (E : PrimitiveBroadPhase loneVertex64 identity64 loneVertex64 identity64 = true)
    by (vm_compute; reflexivity).
  rewrite (H binary64 loneVertex64 identity64 loneVertex64 identity64) in E.
  - discriminate.
  - left. reflexivity.
Qed.

(* ================================================================= *)
(** ** The loop nest under any schedule *)

Section AnySchedule.
Context {K : Scalar}.
Variables (m1 : BVHModel K) (tf1 : Transform3d K).
Variables (m2 : BVHModel K) (tf2 : Transform3d K).

(** What the program's own body does with the flag it sees. *)
Lemma narrowBody_flag (t1 t2 : Triangle) (c : bool) :
  narrowBody m1 tf1 m2 tf2 t1 t2 c =
  if c then Return c
  else found <- narrowBody m1 tf1 m2 tf2 t1 t2 false ;; Return (c || found).
Proof.
  destruct c; [reflexivity|].
  destruct (narrowBody m1 tf1 m2 tf2 t1 t2 false); reflexivity.
Qed.

Lemma scheduledBody_no_Throw (c : bool) (turn : Turn) (e : exn) :
  scheduledBody m1 tf1 m2 tf2 c turn <> Throw e.
Proof.
  destruct turn as [[t1 t2] sees]. unfold scheduledBody.
  destruct (c && sees); [discriminate|].
  pose proof (@narrowBody_no_Throw K m1 tf1 m2 tf2 t1 t2 false e) as N.
  destruct (narrowBody m1 tf1 m2 tf2 t1 t2 false); cbn [bind];
    [discriminate | congruence | discriminate].
Qed.

Lemma runSchedule_no_Throw (schedule : list Turn) (e : exn) :
  forall c, runSchedule m1 tf1 m2 tf2 schedule c <> Throw e.
Proof.
  induction schedule as [|turn schedule IH]; intros c; [discriminate|].
  unfold runSchedule in *. cbn [for_each].
  pose proof (@scheduledBody_no_Throw c turn e) as N.
  destruct (scheduledBody m1 tf1 m2 tf2 c turn); cbn [bind];
    [apply IH | congruence | discriminate].
Qed.

(** A raised flag is never lowered: one iteration on a raised flag leaves
    it raised, unless it reads past the end of a buffer. *)
Lemma scheduledBody_raised (turn : Turn) :
  readsAstray (scheduledBody m1 tf1 m2 tf2 true turn).
Proof.
  destruct turn as [[t1 t2] sees]. unfold scheduledBody. cbn [andb orb].
  destruct sees; [now right|].
  pose proof (@narrowBody_no_Throw K m1 tf1 m2 tf2 t1 t2 false) as N.
  destruct (narrowBody m1 tf1 m2 tf2 t1 t2 false) as [found|e|]; cbn [bind].
  - now right.
  - now elim (N e).
  - now left.
Qed.

Lemma runSchedule_raised (schedule : list Turn) :
  readsAstray (runSchedule m1 tf1 m2 tf2 schedule true).
Proof.
  induction schedule as [|turn schedule IH]; [now right|].
  unfold runSchedule in *. cbn [for_each].
  destruct (scheduledBody_raised turn) as [-> | ->]; cbn [bind]; [now left | exact IH].
Qed.

(** A schedule that holds a pair with an index out of bounds cannot end
    with the flag down: it reads astray, or the flag was up when the pair's
    turn came. *)
Lemma runSchedule_astray (schedule : list Turn) :
  Exists (fun pair => ~ inBounds m1 (fst pair) \/ ~ inBounds m2 (snd pair))
         (map fst schedule) ->
  forall c, readsAstray (runSchedule m1 tf1 m2 tf2 schedule c).
Proof.
  induction schedule as [|[[t1 t2] sees] schedule IH]; intros Bad c;
    [inversion Bad|].
  destruct c; [apply runSchedule_raised|].
  unfold runSchedule in *. cbn [for_each scheduledBody andb orb].
  destruct (inBounds_dec m1 t1) as [B1 | B1];
    [|left; rewrite (narrowBody_outOfBounds tf1 tf2) by (now left); reflexivity].
  destruct (inBounds_dec m2 t2) as [B2 | B2];
    [|left; rewrite (narrowBody_outOfBounds tf1 tf2) by (now right); reflexivity].
  rewrite (narrowBody_inBounds tf1 tf2 false B1 B2). cbn [bind orb].
  apply IH. cbn [map] in Bad. inversion Bad as [? ? [N | N] | ? ? Later]; subst.
  - now elim N.
  - now elim N.
  - exact Later.
Qed.

(** With every index in bounds the flag ends as the disjunction of the
    triangle test over the pairs, whatever the iterations saw of it. *)
Lemma runSchedule_inBounds (schedule : list Turn) :
  Forall (fun pair => inBounds m1 (fst pair) /\ inBounds m2 (snd pair))
         (map fst schedule) ->
  forall c,
    runSchedule m1 tf1 m2 tf2 schedule c =
    Return (c || existsb (fun pair => hit m1 tf1 m2 tf2 (fst pair) (snd pair))
                         (map fst schedule)).
Proof.
  induction schedule as [|[[t1 t2] sees] schedule IH]; intros B c.
  - simpl. now rewrite orb_false_r.
  - cbn [map fst] in B. inversion B as [|? ? [B1 B2] Rest]; subst. cbn [fst snd] in *.
    unfold runSchedule in *. cbn [for_each scheduledBody map existsb fst snd].
    destruct (c && sees) eqn:Seen; cbn [bind].
    + apply andb_true_iff in Seen. destruct Seen as [-> _].
      rewrite (IH Rest). reflexivity.
    + rewrite (narrowBody_inBounds tf1 tf2 false B1 B2). cbn [bind orb].
      rewrite (IH Rest). now rewrite orb_assoc.
Qed.

Lemma list_prod_nil_r {A B : Type} (l : list A) : list_prod l (@nil B) = [].
Proof. induction l as [|a l IH]; [reflexivity | exact IH]. Qed.

(** With no triangle on one side a schedule has no turn. *)
Lemma schedules_nothing (schedule : list Turn) :
  schedules schedule m1 m2 -> num_tris m1 = 0 \/ num_tris m2 = 0 -> schedule = [].
Proof.
  unfold schedules, num_tris. intros P [H | H]; apply length_zero_iff_nil in H;
    rewrite H in P; [|rewrite list_prod_nil_r in P];
    apply Permutation_sym, Permutation_nil in P;
    now destruct schedule.
Qed.

(** With a triangle on each side, an index out of bounds on either shows
    in some pair of every schedule. *)
Lemma schedules_meet_stray (schedule : list Turn) :
  schedules schedule m1 m2 -> num_tris m1 <> 0 -> num_tris m2 <> 0 ->
  ~ wellFormed m1 \/ ~ wellFormed m2 ->
  Exists (fun pair => ~ inBounds m1 (fst pair) \/ ~ inBounds m2 (snd pair))
         (map fst schedule).
Proof.
  unfold schedules, num_tris, wellFormed. intros P N1 N2 Bad.
  destruct (tri_indices m1) as [|a l1] eqn:E1; [now elim N1|].
  destruct (tri_indices m2) as [|b l2] eqn:E2; [now elim N2|].
  apply Exists_exists.
  assert (Pair : exists t1 t2, In t1 (a :: l1) /\ In t2 (b :: l2) /\
                               (~ inBounds m1 t1 \/ ~ inBounds m2 t2)).
  { destruct Bad as [B | B];
      apply (neg_Forall_Exists_neg (inBounds_dec _)) in B;
      apply Exists_exists in B; destruct B as (t & I & N).
    - exists t, b. split; [exact I|]. split; [now left | now left].
    - exists a, t. split; [now left|]. split; [exact I | now right]. }
  destruct Pair as (t1 & t2 & I1 & I2 & N).
  exists (t1, t2). split; [|exact N].
  apply (Permutation_in _ (Permutation_sym P)), in_prod_iff. auto.
Qed.

End AnySchedule.

(** C5, as the code has it.  The query validates nothing and never
    signals an invalid-argument condition.  On an input in which some
    triangle has a vertex index outside its mesh's vertex buffer, and
    under every schedule of the parallel loop nest, it returns [false]
    when the broad phase rejects the pair or when either mesh has no
    triangles; otherwise it does not return [false] either: its outcome is
    the undefined behaviour of an unchecked read past the end of the
    buffer, or [true]. *)
Theorem AtayBayazitCollide_unchecked (K : Scalar)
        (m1 : BVHModel K) (tf1 : Transform3d K) (m2 : BVHModel K) (tf2 : Transform3d K)
        (schedule : list Turn) :
  ~ wellFormed m1 \/ ~ wellFormed m2 ->
  schedules schedule m1 m2 ->
  (forall e, AtayBayazitCollideUnder schedule m1 tf1 m2 tf2 <> Throw e) /\
  (PrimitiveBroadPhase m1 tf1 m2 tf2 = false \/ num_tris m1 = 0 \/ num_tris m2 = 0 ->
   AtayBayazitCollideUnder schedule m1 tf1 m2 tf2 = Return false) /\
  (PrimitiveBroadPhase m1 tf1 m2 tf2 = true -> num_tris m1 <> 0 -> num_tris m2 <> 0 ->
   readsAstray (AtayBayazitCollideUnder schedule m1 tf1 m2 tf2)).
Proof.
  intros Bad Sched. unfold AtayBayazitCollideUnder. split; [|split].
  - intros e. destruct (PrimitiveBroadPhase m1 tf1 m2 tf2); cbn [negb];
      [apply runSchedule_no_Throw | discriminate].
  - intros [H | H].
    + now rewrite H.
    + rewrite (schedules_nothing Sched H).
      destruct (PrimitiveBroadPhase m1 tf1 m2 tf2); reflexivity.
  - intros H N1 N2. rewrite H. cbn [negb].
    apply runSchedule_astray. now apply schedules_meet_stray.
Qed.

(** C5 as stated fails: with a triangle index past the end of the vertex
    buffer and a second mesh far away, the query returns [false] and
    signals nothing. *)
Lemma AtayBayazitCollide_unchecked_counterexample :
  ~ wellFormed strayIndex64 /\
  AtayBayazitCollide strayIndex64 identity64 farTriangle64 identity64 = Return false /\
  AtayBayazitCollide strayIndex64 identity64 farTriangle64 identity64
    <> Throw invalid_argument /\
  AtayBayazitCollideUnder [(Tri 0 1 3, Tri 0 1 2, true)]
    strayIndex64 identity64 farTriangle64 identity64 = Return false /\
  AtayBayazitCollideUnder [(Tri 0 1 3, Tri 0 1 2, false)]
    strayIndex64 identity64 farTriangle64 identity64 = Return false.
Proof.
  split; [|split; [|split; [|split]]].
  - intros W. inversion W as [|t l B _]; subst.
    destruct B as (_ & _ & B). vm_compute in B. lia.
  - vm_compute. reflexivity.
  - vm_compute. discriminate.
  - vm_compute. reflexivity.
  - vm_compute. reflexivity.
Qed.

(** Hence malformed input is not always refused. *)
Lemma AtayBayazitCollide_does_not_validate :
  ~ (forall (K : Scalar) (m1 : BVHModel K) (tf1 : Transform3d K)
            (m2 : BVHModel K) (tf2 : Transform3d K),
       ~ wellFormed m1 \/ ~ wellFormed m2 ->
       AtayBayazitCollide m1 tf1 m2 tf2 = Throw invalid_argument).
Proof.
  intros H.
  assert (E : AtayBayazitCollide strayIndex64 identity64 farTriangle64 identity64
              = Return false) by (vm_compute; reflexivity).
  rewrite (H binary64 strayIndex64 identity64 farTriangle64 identity64) in E.
  - discriminate.
  - left. intros W. inversion W as [|t l B _]; subst.
    destruct B as (_ & _ & B). vm_compute in B. lia.
Qed.

(* ================================================================= *)
(** ** Symmetry of the query *)

Section Symmetry.
Context {K : Scalar}.
Variables (same : K -> K -> Prop) (opp : K -> K).
Hypothesis sign : SignLaws K same opp.

(** Exchanging the factors of a cross product gives the opposite
    vector. *)
Lemma cross_mirrored (a b : Vector3d K) : mirrored same opp (cross b a) (cross a b).
Proof.
  unfold mirrored, cross; cbn [vx vy vz]. repeat split.
  all: eapply (same_trans sign); [|apply (minus_swap sign)].
  all: apply (minus_same sign); apply (times_comm sign).
Qed.

Lemma times_mirrored (x' x u : K) :
  same x' (opp x) -> same (times x' u) (opp (times x u)).
Proof.
  intros H. eapply (same_trans sign); [|apply (times_opp sign)].
  apply (times_same sign); [assumption | apply (same_refl sign)].
Qed.

Lemma plus_mirrored (x' x y' y : K) :
  same x' (opp x) -> same y' (opp y) -> same (plus x' y') (opp (plus x y)).
Proof.
  intros Hx Hy. eapply (same_trans sign); [|apply (plus_opp sign)].
  apply (plus_same sign); auto.
Qed.

Lemma dot_mirrored (a' a u : Vector3d K) :
  mirrored same opp a' a -> same (dot a' u) (opp (dot a u)).
Proof.
  intros (Hx & Hy & Hz). unfold dot.
  repeat apply plus_mirrored; now apply times_mirrored.
Qed.

Lemma square_mirrored (x' x : K) : same x' (opp x) -> same (times x' x') (times x x).
Proof.
  intros H.
  apply (same_trans sign) with (opp (times x x')); [now apply times_mirrored|].
  apply (same_trans sign) with (opp (times x' x));
    [apply (opp_same sign), (times_comm sign)|].
  apply (same_trans sign) with (opp (opp (times x x))); [|apply (opp_opp sign)].
  apply (opp_same sign). now apply times_mirrored.
Qed.

Lemma squaredNorm_mirrored (a' a : Vector3d K) :
  mirrored same opp a' a -> same (squaredNorm a') (squaredNorm a).
Proof.
  intros (Hx & Hy & Hz). unfold squaredNorm, dot.
  repeat apply (plus_same sign); now apply square_mirrored.
Qed.

Lemma less_mirrored (x' x y' y : K) :
  same x' (opp x) -> same y' (opp y) -> less x' y' = less y x.
Proof.
  intros Hx Hy. rewrite (less_same sign _ _ _ _ Hx Hy). apply (less_opp sign).
Qed.

(** Under negation the running minimum and the running maximum change
    places. *)
Lemma std_min_mirrored (m' hi p' p : K) :
  same m' (opp hi) -> same p' (opp p) -> same (std_min m' p') (opp (std_max hi p)).
Proof.
  intros Hm Hp. unfold std_min, std_max. rewrite (less_mirrored Hp Hm).
  destruct (less hi p); assumption.
Qed.

Lemma std_max_mirrored (m' lo p' p : K) :
  same m' (opp lo) -> same p' (opp p) -> same (std_max m' p') (opp (std_min lo p)).
Proof.
  intros Hm Hp. unfold std_min, std_max. rewrite (less_mirrored Hm Hp).
  destruct (less p lo); assumption.
Qed.

Lemma projectOnAxis_mirrored (a' a : Vector3d K) (W : Array3 K) :
  mirrored same opp a' a ->
  same (fst (projectOnAxis a' W)) (opp (snd (projectOnAxis a W))) /\
  same (snd (projectOnAxis a' W)) (opp (fst (projectOnAxis a W))).
Proof.
  intros M. destruct W as [[w0 w1] w2]. rewrite !projectOnAxis_scan.
  cbn [fst snd fold_left].
  pose proof (dot_mirrored w0 M) as P0.
  pose proof (dot_mirrored w1 M) as P1.
  pose proof (dot_mirrored w2 M) as P2.
  split.
  - repeat apply std_min_mirrored; assumption.
  - repeat apply std_max_mirrored; assumption.
Qed.

(** The opposite axis separates exactly when the axis does. *)
Lemma checkOverlapOnAxis_mirrored (a' a : Vector3d K) (U V : Array3 K) :
  mirrored same opp a' a -> checkOverlapOnAxis a' U V = checkOverlapOnAxis a U V.
Proof.
  intros M. rewrite !checkOverlapOnAxis_unfold.
  destruct (projectOnAxis_mirrored U M) as [Ulo Uhi].
  destruct (projectOnAxis_mirrored V M) as [Vlo Vhi].
  rewrite (less_same sign _ _ _ _ (squaredNorm_mirrored M) (same_refl sign epsilon)).
  rewrite (less_mirrored Uhi Vlo), (less_mirrored Vhi Ulo).
  f_equal. f_equal. apply orb_comm.
Qed.

Lemma checkOverlapOnAxis_cross_swap (ea eb : Vector3d K) (U V : Array3 K) :
  checkOverlapOnAxis (cross eb ea) V U = checkOverlapOnAxis (cross ea eb) U V.
Proof.
  rewrite (checkOverlapOnAxis_swap _ V U).
  apply checkOverlapOnAxis_mirrored, cross_mirrored.
Qed.

Lemma TriTriIntersect_one_way (U0 U1 U2 V0 V1 V2 : Vector3d K) :
  TriTriIntersect U0 U1 U2 V0 V1 V2 = true -> TriTriIntersect V0 V1 V2 U0 U1 U2 = true.
Proof.
  rewrite !TriTriIntersect_forallb, !forallb_forall. intros H axis HI.
  unfold candidateAxes, faceNormal, edgeVectors in H, HI.
  cbn [flat_map map app In] in H, HI.
  repeat (destruct HI as [<- | HI];
          [first [ rewrite checkOverlapOnAxis_cross_swap; apply H; tauto
                 | rewrite checkOverlapOnAxis_swap; apply H; tauto ] |]).
  contradiction.
Qed.

Lemma TriTriIntersect_swap (U0 U1 U2 V0 V1 V2 : Vector3d K) :
  TriTriIntersect U0 U1 U2 V0 V1 V2 = TriTriIntersect V0 V1 V2 U0 U1 U2.
Proof.
  apply eq_true_iff_eq. split; apply TriTriIntersect_one_way.
Qed.

Lemma hit_swap (m1 m2 : BVHModel K) (tf1 tf2 : Transform3d K) (t1 t2 : Triangle) :
  hit m1 tf1 m2 tf2 t1 t2 = hit m2 tf2 m1 tf1 t2 t1.
Proof.
  unfold hit.
  destruct (worldTriangle m1 tf1 t1) as [[[U0 U1] U2]|],
           (worldTriangle m2 tf2 t2) as [[[V0 V1] V2]|]; try reflexivity.
  apply TriTriIntersect_swap.
Qed.

End Symmetry.

Lemma existsb_exchange {A B : Type} (f : A -> B -> bool) (l1 : list A) (l2 : list B) :
  existsb (fun a => existsb (f a) l2) l1 = existsb (fun b => existsb (fun a => f a b) l1) l2.
Proof.
  apply eq_true_iff_eq. rewrite !existsb_exists. split.
  - intros (a & Ia & H). apply existsb_exists in H. destruct H as (b & Ib & H).
    exists b. split; [assumption|]. apply existsb_exists. eauto.
  - intros (b & Ib & H). apply existsb_exists in H. destruct H as (a & Ia & H).
    exists a. split; [assumption|]. apply existsb_exists. eauto.
Qed.

Lemma existsb_pointwise {A : Type} (f g : A -> bool) (l : list A) :
  (forall a, f a = g a) -> existsb f l = existsb g l.
Proof.
  intros E. induction l as [|a l IH]; [reflexivity|]. simpl. now rewrite E, IH.
Qed.

(** With indices in bounds the nested loops are a disjunction over all
    pairs, which does not care which mesh comes first. *)
Lemma narrowPhase_swap (K : Scalar) (same : K -> K -> Prop) (opp : K -> K)
      (sign : SignLaws K same opp)
      (m1 : BVHModel K) (tf1 : Transform3d K) (m2 : BVHModel K) (tf2 : Transform3d K) :
  wellFormed m1 -> wellFormed m2 ->
  narrowPhase m1 tf1 m2 tf2 = narrowPhase m2 tf2 m1 tf1.
Proof.
  intros W1 W2. unfold narrowPhase.
  rewrite (outerLoop_inBounds tf1 tf2 W1 W2), (outerLoop_inBounds tf2 tf1 W2 W1).
  cbn [orb]. f_equal.
  rewrite existsb_exchange. apply existsb_pointwise. intros t2.
  apply existsb_pointwise. intros t1. apply (hit_swap sign).
Qed.

(** C8.  The query gives the same answer when the two (mesh, transform)
    pairs change places.  The indices of both meshes must be in bounds,
    and the arithmetic must have a negation that the operations and the
    comparison respect; exact arithmetic has one, and so have doubles. *)
Theorem AtayBayazitCollide_commutative (K : Scalar) (same : K -> K -> Prop) (opp : K -> K)
        (sign : SignLaws K same opp)
        (m1 : BVHModel K) (tf1 : Transform3d K) (m2 : BVHModel K) (tf2 : Transform3d K) :
  wellFormed m1 -> wellFormed m2 ->
  AtayBayazitCollide m1 tf1 m2 tf2 = AtayBayazitCollide m2 tf2 m1 tf1.
Proof.
  intros W1 W2. unfold AtayBayazitCollide.
  rewrite (PrimitiveBroadPhase_swap m2 m1).
  destruct (PrimitiveBroadPhase m1 tf1 m2 tf2); cbn [negb].
  - exact (narrowPhase_swap sign tf1 tf2 W1 W2).
  - reflexivity.
Qed.

(* ================================================================= *)
(** ** Any order of the iterations *)

Section Schedule.
Context {K : Scalar}.
Variables (m1 : BVHModel K) (tf1 : Transform3d K).
Variables (m2 : BVHModel K) (tf2 : Transform3d K).

Lemma runPairs_inBounds (pairs : list (Triangle * Triangle)) :
  Forall (fun pair => inBounds m1 (fst pair) /\ inBounds m2 (snd pair)) pairs ->
  forall c,
    runPairs m1 tf1 m2 tf2 pairs c =
    Return (c || existsb (fun pair => hit m1 tf1 m2 tf2 (fst pair) (snd pair)) pairs).
Proof.
  intros B. induction B as [|pair pairs [B1 B2] B IH]; intros c.
  - simpl. now rewrite orb_false_r.
  - unfold runPairs in *. cbn [for_each existsb].
    rewrite (narrowBody_inBounds tf1 tf2 c B1 B2). cbn [bind].
    rewrite IH. now rewrite orb_assoc.
Qed.

Lemma existsb_Permutation {A : Type} (f : A -> bool) (l l' : list A) :
  Permutation l l' -> existsb f l = existsb f l'.
Proof.
  intros P. apply eq_true_iff_eq. rewrite !existsb_exists.
  split; intros (x & I & H); exists x; split; auto.
  - eapply Permutation_in; eauto.
  - eapply Permutation_in; [apply Permutation_sym|]; eauto.
Qed.

Lemma existsb_list_prod {A B : Type} (f : A -> B -> bool) (l1 : list A) (l2 : list B) :
  existsb (fun pair => f (fst pair) (snd pair)) (list_prod l1 l2) =
  existsb (fun a => existsb (f a) l2) l1.
Proof.
  apply eq_true_iff_eq. rewrite !existsb_exists. split.
  - intros ([a b] & I & H). apply in_prod_iff in I. destruct I as [Ia Ib].
    exists a. split; [assumption|]. apply existsb_exists. eauto.
  - intros (a & Ia & H). apply existsb_exists in H. destruct H as (b & Ib & H).
    exists (a, b). split; [now apply in_prod_iff | exact H].
Qed.

(** With indices in bounds, whatever order the iterations of the loop
    nest are run in, the flag ends as the sequential program leaves it. *)
Lemma narrowPhase_any_order (pairs : list (Triangle * Triangle)) :
  wellFormed m1 -> wellFormed m2 ->
  Permutation pairs (list_prod (tri_indices m1) (tri_indices m2)) ->
  runPairs m1 tf1 m2 tf2 pairs false = narrowPhase m1 tf1 m2 tf2.
Proof.
  intros W1 W2 P. unfold narrowPhase.
  rewrite (outerLoop_inBounds tf1 tf2 W1 W2), runPairs_inBounds.
  - cbn [orb]. f_equal. rewrite (existsb_Permutation _ P). apply existsb_list_prod.
  - apply Forall_forall. intros [t1 t2] I.
    apply (Permutation_in _ P), in_prod_iff in I. destruct I as [I1 I2].
    unfold wellFormed in W1, W2. rewrite Forall_forall in W1, W2. split; auto.
Qed.

End Schedule.


(* ================================================================= *)
(** ** Exact arithmetic obeys the laws *)

Lemma Qltb_lt (x y : Q) : Qltb x y = true <-> (x < y)%Q.
Proof.
  unfold Qltb. rewrite negb_true_iff, <- not_true_iff_false, Qle_bool_iff.
  split; [apply Qnot_le_lt | apply Qlt_not_le].
Qed.

Lemma Qltb_ge (x y : Q) : Qltb x y = false <-> (y <= x)%Q.
Proof.
  unfold Qltb. rewrite negb_false_iff. apply Qle_bool_iff.
Qed.

Lemma rational_order : OrderLaws rational (fun _ => True).
Proof.
  split; cbn [num less rational].
  - intros x. apply Qltb_ge, Qle_refl.
  - intros x y z. rewrite !Qltb_lt. apply Qlt_trans.
  - intros x y z _. rewrite !Qltb_ge. intros H1 H2. eapply Qle_trans; eauto.
Qed.

Lemma Qltb_same (x x' y y' : Q) : (x == x')%Q -> (y == y')%Q -> Qltb x y = Qltb x' y'.
Proof.
  intros Hx Hy. apply eq_true_iff_eq. rewrite !Qltb_lt, Hx, Hy. reflexivity.
Qed.

Lemma Qltb_opp (x y : Q) : Qltb (- x) (- y) = Qltb y x.
Proof.
  apply eq_true_iff_eq. rewrite !Qltb_lt. split; intros H.
  - apply Qopp_lt_compat in H. now rewrite !Qopp_involutive in H.
  - now apply Qopp_lt_compat.
Qed.

Lemma rational_sign : SignLaws rational Qeq Qopp.
Proof.
  split; cbn [num plus minus times less rational].
  - intros x. reflexivity.
  - intros x y H. now symmetry.
  - intros x y z H1 H2. now rewrite H1.
  - intros x x' y y' Hx Hy. now rewrite Hx, Hy.
  - intros x x' y y' Hx Hy. now rewrite Hx, Hy.
  - intros x x' y y' Hx Hy. now rewrite Hx, Hy.
  - intros x x' Hx. now rewrite Hx.
  - apply Qltb_same.
  - intros x y. ring.
  - intros x y. ring.
  - intros x y. ring.
  - intros x y. ring.
  - intros x. ring.
  - apply Qltb_opp.
Qed.

(* ================================================================= *)
(** ** Doubles obey the laws *)

Section Doubles.

Lemma SFcompare_nan_l (b : spec_float) : SFcompare S754_nan b = None.
Proof. destruct b; reflexivity. Qed.

Lemma SFcompare_nan_r (a : spec_float) : SFcompare a S754_nan = None.
Proof. destruct a as [| [] | |]; reflexivity. Qed.

(** The comparison of two doubles neither of which is NaN is the
    lexicographic comparison of their keys. *)
Lemma SFcompare_key (a b : spec_float) :
  a <> S754_nan -> b <> S754_nan ->
  (SFcompare a b = Some Lt <-> keyBelow (sfKey a) (sfKey b)).
Proof.
  intros Na Nb.
  destruct a as [sa | sa | | sa ma ea]; [| |now elim Na|];
  destruct b as [sb | sb | | sb mb eb]; try (now elim Nb);
    try destruct sa; try destruct sb; cbn [SFcompare sfKey keyBelow];
    try change (PosDef.Pos.compare_cont Eq ma mb) with (Pos.compare ma mb);
    try destruct (Z.compare_spec ea eb); try destruct (Pos.compare_spec ma mb);
    cbn [CompOpp];
    split; intros HH; first [reflexivity | discriminate | lia | exfalso; lia].
Qed.

Lemma SFltb_key (a b : spec_float) :
  SFltb a b = true <->
  a <> S754_nan /\ b <> S754_nan /\ keyBelow (sfKey a) (sfKey b).
Proof.
  unfold SFltb. split.
  - intros H.
    assert (Na : a <> S754_nan)
      by (intros ->; rewrite SFcompare_nan_l in H; discriminate).
    assert (Nb : b <> S754_nan)
      by (intros ->; rewrite SFcompare_nan_r in H; discriminate).
    repeat split; auto. apply SFcompare_key; auto.
    destruct (SFcompare a b) as [[]|]; try discriminate; reflexivity.
  - intros (Na & Nb & Kb). apply SFcompare_key in Kb; auto. now rewrite Kb.
Qed.

Lemma SFltb_not_key (a b : spec_float) :
  a <> S754_nan -> b <> S754_nan ->
  SFltb a b = false -> ~ keyBelow (sfKey a) (sfKey b).
Proof.
  intros Na Nb H Kb.
  assert (T : SFltb a b = true) by (apply SFltb_key; auto). congruence.
Qed.

Lemma keyBelow_irrefl (k : Z * Z * Z) : ~ keyBelow k k.
Proof. destruct k as [[a b] c]. cbn. lia. Qed.

Lemma keyBelow_trans (k1 k2 k3 : Z * Z * Z) :
  keyBelow k1 k2 -> keyBelow k2 k3 -> keyBelow k1 k3.
Proof. destruct k1 as [[a1 b1] c1], k2 as [[a2 b2] c2], k3 as [[a3 b3] c3]. cbn. lia. Qed.

Lemma keyBelow_through (k1 k2 k3 : Z * Z * Z) :
  ~ keyBelow k1 k2 -> ~ keyBelow k2 k3 -> ~ keyBelow k1 k3.
Proof. destruct k1 as [[a1 b1] c1], k2 as [[a2 b2] c2], k3 as [[a3 b3] c3]. cbn. lia. Qed.

(** The comparison of doubles is irreflexive and transitive, NaN
    included, and the doubles that are not NaN are totally ordered. *)
Lemma binary64_order : OrderLaws binary64 ordered64.
Proof.
  split; cbn [num less binary64]; unfold ordered64.
  - intros x. rewrite ltb_spec.
    destruct (SFltb (Prim2SF x) (Prim2SF x)) eqn:E; [|reflexivity].
    apply SFltb_key in E. destruct E as (_ & _ & E). now apply keyBelow_irrefl in E.
  - intros x y z. rewrite !ltb_spec, !SFltb_key.
    intros (Nx & Ny & K1) (_ & Nz & K2). eauto using keyBelow_trans.
  - intros x y z Ny. rewrite !ltb_spec. intros H1 H2.
    destruct (SFltb (Prim2SF x) (Prim2SF z)) eqn:E; [|reflexivity].
    apply SFltb_key in E. destruct E as (Nx & Nz & E).
    exfalso. revert E. apply keyBelow_through with (sfKey (Prim2SF y));
      apply SFltb_not_key; auto.
Qed.

Lemma binary64_less_irrefl (x : binary64) : less x x = false.
Proof. apply (less_irrefl binary64_order). Qed.

(** *** Negation and the sign of zero *)

Lemma sfSame_refl (a : spec_float) : sfSame a a.
Proof. now left. Qed.

Lemma sfSame_sym (a b : spec_float) : sfSame a b -> sfSame b a.
Proof. intros [-> | (s & s' & -> & ->)]; [now left | right; eauto]. Qed.

Lemma sfSame_trans (a b c : spec_float) : sfSame a b -> sfSame b c -> sfSame a c.
Proof.
  intros [-> | (s & s' & -> & ->)] [<- | (t & t' & E & ->)];
    first [now left | right; eauto].
Qed.

Lemma sfSame_zeros (s s' : bool) : sfSame (S754_zero s) (S754_zero s').
Proof. right. eauto. Qed.

Ltac same_by_cases :=
  first [ apply sfSame_refl | apply sfSame_zeros ].

Lemma SFopp_same (a a' : spec_float) : sfSame a a' -> sfSame (SFopp a) (SFopp a').
Proof. intros [-> | (s & s' & -> & ->)]; cbn [SFopp]; same_by_cases. Qed.

Lemma SFcompare_same (a a' b b' : spec_float) :
  sfSame a a' -> sfSame b b' -> SFcompare a b = SFcompare a' b'.
Proof.
  intros [-> | (s & s' & -> & ->)] [-> | (t & t' & -> & ->)]; try reflexivity;
    first [ destruct a' as [| [] | | []]; reflexivity
          | destruct b' as [| [] | | []]; reflexivity ].
Qed.

Lemma SFadd_same (a a' b b' : spec_float) :
  sfSame a a' -> sfSame b b' -> sfSame (SF64add a b) (SF64add a' b').
Proof.
  unfold SF64add.
  intros [-> | (s & s' & -> & ->)] [-> | (t & t' & -> & ->)].
  - apply sfSame_refl.
  - destruct a' as [[] | | |]; destruct t, t'; cbn [SFadd]; same_by_cases.
  - destruct b' as [[] | | |]; destruct s, s'; cbn [SFadd]; same_by_cases.
  - destruct s, s', t, t'; cbn [SFadd]; same_by_cases.
Qed.

Lemma SFsub_same (a a' b b' : spec_float) :
  sfSame a a' -> sfSame b b' -> sfSame (SF64sub a b) (SF64sub a' b').
Proof.
  unfold SF64sub.
  intros [-> | (s & s' & -> & ->)] [-> | (t & t' & -> & ->)].
  - apply sfSame_refl.
  - destruct a' as [[] | | |]; destruct t, t'; cbn [SFsub]; same_by_cases.
  - destruct b' as [[] | | |]; destruct s, s'; cbn [SFsub]; same_by_cases.
  - destruct s, s', t, t'; cbn [SFsub]; same_by_cases.
Qed.

Lemma SFmul_same (a a' b b' : spec_float) :
  sfSame a a' -> sfSame b b' -> sfSame (SF64mul a b) (SF64mul a' b').
Proof.
  unfold SF64mul.
  intros [-> | (s & s' & -> & ->)] [-> | (t & t' & -> & ->)].
  - apply sfSame_refl.
  - destruct a' as [| | |]; cbn [SFmul]; same_by_cases.
  - destruct b' as [| | |]; cbn [SFmul]; same_by_cases.
  - cbn [SFmul]; same_by_cases.
Qed.

(** Rounding works on the magnitude and copies the sign. *)
Lemma binary_round_aux_opp (s : bool) (m e : Z) (l : location) :
  SFopp (binary_round_aux prec emax s m e l) = binary_round_aux prec emax (negb s) m e l.
Proof.
  unfold binary_round_aux.
  destruct (shr_fexp prec emax m e l) as [mrs' e'].
  destruct (shr_fexp prec emax _ e' loc_Exact) as [mrs'' e''].
  destruct (shr_m mrs''); [reflexivity | | reflexivity].
  destruct (Z.leb e'' (Z.sub emax prec)); reflexivity.
Qed.

Lemma binary_round_opp (s : bool) (m : positive) (e : Z) :
  SFopp (binary_round prec emax s m e) = binary_round prec emax (negb s) m e.
Proof.
  unfold binary_round. destruct (shl_align _ _ _) as [mz ez].
  apply binary_round_aux_opp.
Qed.

Lemma binary_normalize_opp (n e : Z) :
  sfSame (binary_normalize prec emax (Z.opp n) e false)
         (SFopp (binary_normalize prec emax n e false)).
Proof.
  destruct n as [|p|p]; cbn [Z.opp binary_normalize].
  - apply sfSame_zeros.
  - rewrite binary_round_opp. apply sfSame_refl.
  - rewrite binary_round_opp. apply sfSame_refl.
Qed.

Lemma cond_Zopp_negb (s : bool) (n : Z) : cond_Zopp (negb s) n = Z.opp (cond_Zopp s n).
Proof. destruct s; cbn [cond_Zopp negb]; lia. Qed.

Lemma SFmul_comm (a b : spec_float) : SF64mul a b = SF64mul b a.
Proof.
  unfold SF64mul.
  destruct a as [sa | sa | | sa ma ea], b as [sb | sb | | sb mb eb]; cbn [SFmul];
    try reflexivity; rewrite (xorb_comm sa sb); try reflexivity.
  now rewrite (Pos.mul_comm ma mb), (Z.add_comm ea eb).
Qed.

Lemma SFmul_opp (a b : spec_float) : SF64mul (SFopp a) b = SFopp (SF64mul a b).
Proof.
  unfold SF64mul.
  destruct a as [sa | sa | | sa ma ea], b as [sb | sb | | sb mb eb];
    cbn [SFmul SFopp]; rewrite ?binary_round_aux_opp, ?negb_xorb_l; reflexivity.
Qed.

Lemma SFsub_swap (a b : spec_float) : sfSame (SF64sub b a) (SFopp (SF64sub a b)).
Proof.
  unfold SF64sub.
  destruct a as [sa | sa | | sa ma ea], b as [sb | sb | | sb mb eb];
    cbn [SFsub SFopp]; rewrite ?negb_involutive;
    try same_by_cases; try (destruct sa, sb; cbn [SFopp negb]; same_by_cases).
  rewrite (Z.min_comm eb ea).
  match goal with
  | |- sfSame (binary_normalize _ _ (Z.sub ?y ?x) _ _) _ =>
      replace (Z.sub y x) with (Z.opp (Z.sub x y)) by lia
  end.
  apply binary_normalize_opp.
Qed.

Lemma SFadd_opp (a b : spec_float) :
  sfSame (SF64add (SFopp a) (SFopp b)) (SFopp (SF64add a b)).
Proof.
  unfold SF64add.
  destruct a as [sa | sa | | sa ma ea], b as [sb | sb | | sb mb eb];
    cbn [SFadd SFopp];
    try same_by_cases; try (destruct sa, sb; cbn [SFopp negb]; same_by_cases).
  rewrite !cond_Zopp_negb, <- Z.opp_add_distr.
  apply binary_normalize_opp.
Qed.

Lemma SFopp_opp (a : spec_float) : SFopp (SFopp a) = a.
Proof. destruct a; cbn [SFopp]; now rewrite ?negb_involutive. Qed.

Lemma SFopp_nan (a : spec_float) : SFopp a = S754_nan <-> a = S754_nan.
Proof. destruct a; cbn [SFopp]; split; intros H; first [reflexivity | discriminate]. Qed.

Lemma keyBelow_opp (a b : spec_float) :
  a <> S754_nan -> b <> S754_nan ->
  (keyBelow (sfKey (SFopp a)) (sfKey (SFopp b)) <-> keyBelow (sfKey b) (sfKey a)).
Proof.
  intros Na Nb.
  destruct a as [sa | [] | | [] ma ea]; try (now elim Na);
  destruct b as [sb | [] | | [] mb eb]; try (now elim Nb);
    cbn [SFopp sfKey keyBelow negb]; lia.
Qed.

Lemma SFltb_opp (a b : spec_float) : SFltb (SFopp a) (SFopp b) = SFltb b a.
Proof.
  apply eq_true_iff_eq. rewrite !SFltb_key, !SFopp_nan. split.
  - intros (Na & Nb & H). repeat split; auto. now apply keyBelow_opp.
  - intros (Nb & Na & H). repeat split; auto. now apply keyBelow_opp.
Qed.

(** Negation of doubles commutes with their arithmetic up to the sign
    of zero, and reverses their comparison. *)
Lemma binary64_sign : SignLaws binary64 same64 PrimFloat.opp.
Proof.
  split; cbn [num plus minus times less binary64]; unfold same64.
  - intros x. apply sfSame_refl.
  - intros x y. apply sfSame_sym.
  - intros x y z. apply sfSame_trans.
  - intros x x' y y'. rewrite !add_spec. apply SFadd_same.
  - intros x x' y y'. rewrite !sub_spec. apply SFsub_same.
  - intros x x' y y'. rewrite !mul_spec. apply SFmul_same.
  - intros x x'. rewrite !opp_spec. apply SFopp_same.
  - intros x x' y y' Hx Hy. rewrite !ltb_spec. unfold SFltb.
    now rewrite (SFcompare_same Hx Hy).
  - intros x y. rewrite !mul_spec, SFmul_comm. apply sfSame_refl.
  - intros x y. rewrite opp_spec, !sub_spec. apply SFsub_swap.
  - intros x y. rewrite opp_spec, !mul_spec, opp_spec, SFmul_opp. apply sfSame_refl.
  - intros x y. rewrite opp_spec, !add_spec, !opp_spec. apply SFadd_opp.
  - intros x. rewrite !opp_spec, SFopp_opp. apply sfSame_refl.
  - intros x y. rewrite !ltb_spec, !opp_spec. apply SFltb_opp.
Qed.

(** *** What the laws give for the program as compiled *)

(** On doubles a triangle intersects itself, whatever its coordinates
    (infinities and NaN included). *)
Corollary doubles_self_intersection (W0 W1 W2 : Vector3d binary64) :
  TriTriIntersect W0 W1 W2 W0 W1 W2 = true.
Proof. apply TriTriIntersect_reflexive, binary64_less_irrefl. Qed.

(** On doubles the query is symmetric for all meshes with indices in
    bounds and all transforms. *)
Corollary doubles_symmetry (m1 m2 : BVHModel binary64) (tf1 tf2 : Transform3d binary64) :
  wellFormed m1 -> wellFormed m2 ->
  AtayBayazitCollide m1 tf1 m2 tf2 = AtayBayazitCollide m2 tf2 m1 tf1.
Proof.
  intros W1 W2. unfold AtayBayazitCollide.
  rewrite (PrimitiveBroadPhase_swap m2 m1).
  destruct (PrimitiveBroadPhase m1 tf1 m2 tf2); cbn [negb].
  - exact (narrowPhase_swap binary64_sign tf1 tf2 W1 W2).
  - reflexivity.
Qed.

(** On doubles two triangles with a common vertex intersect as soon as
    that vertex projects to a number, not to NaN, on each candidate
    axis. *)
Corollary doubles_common_vertex (U0 U1 U2 V0 V1 V2 P : Vector3d binary64) :
  In P [U0; U1; U2] -> In P [V0; V1; V2] ->
  (forall axis, In axis (candidateAxes (U0, U1, U2) (V0, V1, V2)) ->
                Prim2SF (dot axis P) <> S754_nan) ->
  TriTriIntersect U0 U1 U2 V0 V1 V2 = true.
Proof.
  intros HU HV Hord.
  rewrite TriTriIntersect_forallb. apply forallb_forall.
  intros axis Hax.
  apply (common_vertex_no_gap binary64_order axis HU HV).
  apply Hord, Hax.
Qed.

(** In exact arithmetic they always do. *)
Corollary exact_common_vertex (U0 U1 U2 V0 V1 V2 P : Vector3d rational) :
  In P [U0; U1; U2] -> In P [V0; V1; V2] ->
  TriTriIntersect U0 U1 U2 V0 V1 V2 = true.
Proof.
  intros HU HV.
  rewrite TriTriIntersect_forallb. apply forallb_forall.
  intros axis _.
  exact (common_vertex_no_gap rational_order axis HU HV I).
Qed.

End Doubles.

(* ================================================================= *)
(** ** The model at work *)

(** Section 8 of the specification on doubles: a triangle in the plane
    [z = 0] and one in the plane [z = 5] are apart, and the first face
    normal separates them. *)
Example lifted_triangles_apart :
  TriTriIntersect (vec64 0 0 0) (vec64 1 0 0) (vec64 0 1 0)
                  (vec64 0 0 5) (vec64 1 0 5) (vec64 0 1 5) = false /\
  checkOverlapOnAxis (faceNormal flatU64) flatU64 liftedV64 = false.
Proof. split; vm_compute; reflexivity. Qed.

(** Coplanar triangles that share a region intersect. *)
Example coplanar_triangles_meet :
  TriTriIntersect (vec64 0 0 0) (vec64 2 0 0) (vec64 0 2 0)
                  (vec64 0.5 0.5 0) (vec64 3 0.5 0) (vec64 0.5 3 0) = true.
Proof. vm_compute. reflexivity. Qed.

(** Two unit boxes, ten apart and half a unit apart. *)
Example boxes_broad_phase :
  PrimitiveBroadPhase (unitBox64 0) identity64 (unitBox64 10) identity64 = false /\
  PrimitiveBroadPhase (unitBox64 0) identity64 (unitBox64 0.5) identity64 = true.
Proof. split; vm_compute; reflexivity. Qed.

(** An index past the end of the buffer, met with the flag down, is read
    unchecked. *)
Example stray_index_is_read :
  AtayBayazitCollide strayIndex64 identity64 originTriangle64 identity64 = Undefined.
Proof. vm_compute. reflexivity. Qed.

Lemma AtayBayazitCollide_spec_witness :
  AtayBayazitCollide originTriangleQ identityQ originTriangleQ (shiftQ 9 9 9) = Return false /\
  exists b : bool,
    AtayBayazitCollide originTriangleQ identityQ touchingTriangleQ identityQ = Return b /\
    (b = true <->
     exists i j, i < num_tris originTriangleQ /\ j < num_tris touchingTriangleQ /\
       pairIntersects originTriangleQ identityQ touchingTriangleQ identityQ i j).
Proof.
  split.
  - apply (AtayBayazitCollide_spec originTriangleQ identityQ originTriangleQ (shiftQ 9 9 9)).
    vm_compute. reflexivity.
  - apply (AtayBayazitCollide_spec originTriangleQ identityQ touchingTriangleQ identityQ).
    + vm_compute. reflexivity.
    + repeat constructor.
    + repeat constructor.
Defined.

Lemma TriTriIntersect_self_witness :
  TriTriIntersect (vec64 1 1 1) (vec64 1 1 1) (vec64 2 2 2)
                  (vec64 1 1 1) (vec64 1 1 1) (vec64 2 2 2) = true /\
  forall axis : Vector3d binary64,
    less (snd (projectOnAxis axis needle64)) (fst (projectOnAxis axis needle64)) = false /\
    checkOverlapOnAxis axis needle64 needle64 = true.
Proof.
  apply (@TriTriIntersect_self binary64 binary64_less_irrefl).
Defined.

Lemma AtayBayazitCollide_no_triangles_witness :
  AtayBayazitCollide noTrianglesQ identityQ originTriangleQ identityQ = Return false.
Proof.
  apply (@AtayBayazitCollide_no_triangles rational). left. reflexivity.
Defined.

Lemma PrimitiveBroadPhase_vacuous_witness :
  PrimitiveBroadPhase emptyQ identityQ originTriangleQ identityQ = false.
Proof.
  apply (proj1 (PrimitiveBroadPhase_vacuous emptyQ identityQ originTriangleQ identityQ)).
  left. reflexivity.
Defined.

Ltac among := vm_compute; tauto.

Ltac bounded_by :=
  let p := fresh "p" in
  let Hp := fresh "Hp" in
  intros p Hp; vm_compute in Hp;
  repeat (destruct Hp as [Hp | Hp]; [subst p; vm_compute; reflexivity|]);
  contradiction.

Ltac extremum := split; [among | bounded_by].

Ltac all_ordered64 :=
  repeat (apply Forall_cons; [vm_compute; discriminate|]); apply Forall_nil.

Lemma checkOverlapOnAxis_spec_witness :
  checkOverlapOnAxis (vec64 0 0 0) flatU64 liftedV64 = true /\
  (checkOverlapOnAxis (vec64 0 0 1) flatU64 liftedV64 = true <->
   less (squaredNorm (vec64 0 0 1)) epsilon = true \/
   @intervalsOverlap binary64 0%float 0%float 5%float 5%float).
Proof.
  split.
  - apply (proj1 (checkOverlapOnAxis_spec (vec64 0 0 0) flatU64 liftedV64)).
    vm_compute. reflexivity.
  - apply (proj2 (proj2 (checkOverlapOnAxis_spec (vec64 0 0 1) flatU64 liftedV64))
                 ordered64 binary64_order).
    + all_ordered64.
    + all_ordered64.
    + extremum.
    + extremum.
    + extremum.
    + extremum.
Defined.

Lemma PrimitiveBroadPhase_spec_witness :
  PrimitiveBroadPhase emptyQ identityQ originTriangleQ identityQ = false /\
  (PrimitiveBroadPhase originTriangleQ identityQ touchingTriangleQ identityQ = true <->
   forall i, i < 3 ->
     intervalsOverlap (coord (vecQ 0 0 0) i) (coord (vecQ 1 1 0) i)
                      (coord (vecQ (-1) (-1) 0) i) (coord (vecQ 0 0 0) i)).
Proof.
  split.
  - apply (proj1 (PrimitiveBroadPhase_spec emptyQ identityQ originTriangleQ identityQ)).
    left. reflexivity.
  - apply (proj2 (proj2 (PrimitiveBroadPhase_spec originTriangleQ identityQ
                                                  touchingTriangleQ identityQ))
                 (fun _ => True) rational_order).
    + discriminate.
    + discriminate.
    + intros i _. split; apply Forall_forall; intros; exact I.
    + intros i Hi. destruct i as [|[|[|i]]]; [| | |exfalso; lia];
        repeat split; first [among | bounded_by].
Defined.

Lemma strayIndex64_illFormed : ~ wellFormed strayIndex64.
Proof.
  intros W. inversion W as [|t l B _]; subst.
  destruct B as (_ & _ & B). vm_compute in B. lia.
Qed.

Lemma soundThenStray64_illFormed : ~ wellFormed soundThenStray64.
Proof.
  intros W. inversion W as [|t l _ W']; subst.
  inversion W' as [|t' l' B _]; subst.
  destruct B as (_ & _ & B). vm_compute in B. lia.
Qed.

Lemma AtayBayazitCollide_unchecked_witness :
  AtayBayazitCollideUnder [(Tri 0 1 3, Tri 0 1 2, true)]
    strayIndex64 identity64 farTriangle64 identity64 = Return false /\
  readsAstray (AtayBayazitCollideUnder
                 [(Tri 0 1 7, Tri 0 1 2, true); (Tri 0 1 2, Tri 0 1 2, true)]
                 soundThenStray64 identity64 originTriangle64 identity64).
Proof.
  split.
  - apply (@AtayBayazitCollide_unchecked binary64 strayIndex64 identity64
             farTriangle64 identity64 [(Tri 0 1 3, Tri 0 1 2, true)]).
    + left. exact strayIndex64_illFormed.
    + apply Permutation_refl.
    + left. vm_compute. reflexivity.
  - apply (@AtayBayazitCollide_unchecked binary64 soundThenStray64 identity64
             originTriangle64 identity64
             [(Tri 0 1 7, Tri 0 1 2, true); (Tri 0 1 2, Tri 0 1 2, true)]).
    + left. exact soundThenStray64_illFormed.
    + apply perm_swap.
    + vm_compute. reflexivity.
    + discriminate.
    + discriminate.
Defined.

Lemma AtayBayazitCollide_commutative_witness :
  AtayBayazitCollide originTriangle64 identity64 touchingTriangle64 identity64 =
  AtayBayazitCollide touchingTriangle64 identity64 originTriangle64 identity64.
Proof.
  apply (AtayBayazitCollide_commutative binary64_sign); repeat constructor.
Defined.

Lemma TriTriIntersect_shared_vertex_witness :
  TriTriIntersect (vec64 0 0 0) (vec64 1 0 0) (vec64 0 1 0)
                  (vec64 0 0 0) (vec64 (-1) 0 0) (vec64 0 (-1) 0) = true.
Proof.
  apply (@TriTriIntersect_shared_vertex binary64 ordered64 binary64_order
           _ _ _ _ _ _ (vec64 0 0 0)).
  - left. reflexivity.
  - left. reflexivity.
  - intros axis Hin. vm_compute in Hin.
    repeat (destruct Hin as [Hin | Hin]; [subst axis; vm_compute; discriminate|]).
    contradiction.
Defined.

Lemma TriTriIntersect_eleven_axes_witness :
  TriTriIntersect (vec64 0 0 0) (vec64 1 0 0) (vec64 0 1 0)
                  (vec64 0 0 0) (vec64 (-1) 0 0) (vec64 0 (-1) 0) = true.
Proof.
  apply (@TriTriIntersect_eleven_axes binary64).
  intros axis Hin. vm_compute in Hin.
  repeat (destruct Hin as [Hin | Hin]; [subst axis; vm_compute; reflexivity|]).
  contradiction.
Defined.

(* ================================================================= *)
(** ** The loop nest as one loop *)

Lemma for_each_app {A S : Type} (body : S -> A -> outcome S) (l l' : list A) :
  forall s, for_each body (l ++ l') s = s' <- for_each body l s ;; for_each body l' s'.
Proof.
  induction l as [|a l IH]; intros s; [reflexivity|].
  cbn [app for_each]. destruct (body s a) as [s1| |]; cbn [bind]; [apply IH | | ]; reflexivity.
Qed.

Section RowMajor.
Context {K : Scalar}.
Variables (m1 : BVHModel K) (tf1 : Transform3d K).
Variables (m2 : BVHModel K) (tf2 : Transform3d K).

Lemma runPairs_app (pre post : list (Triangle * Triangle)) (c : bool) :
  runPairs m1 tf1 m2 tf2 (pre ++ post) c =
  c' <- runPairs m1 tf1 m2 tf2 pre c ;; runPairs m1 tf1 m2 tf2 post c'.
Proof. apply for_each_app. Qed.

Lemma runPairs_flagged (pairs : list (Triangle * Triangle)) :
  runPairs m1 tf1 m2 tf2 pairs true = Return true.
Proof. induction pairs as [|p pairs IH]; [reflexivity | exact IH]. Qed.

Lemma runPairs_row (t1 : Triangle) (l2 : list Triangle) (c : bool) :
  runPairs m1 tf1 m2 tf2 (map (pair t1) l2) c = innerLoop m1 tf1 m2 tf2 t1 l2 c.
Proof.
  revert c. induction l2 as [|t2 l2 IH]; intros c; [reflexivity|].
  unfold runPairs, innerLoop in *. cbn [map for_each fst snd].
  destruct (narrowBody m1 tf1 m2 tf2 t1 t2 c); cbn [bind]; [apply IH | | ]; reflexivity.
Qed.

Lemma outerLoop_row_major (l1 l2 : list Triangle) (c : bool) :
  outerLoop m1 tf1 m2 tf2 l1 l2 c = runPairs m1 tf1 m2 tf2 (list_prod l1 l2) c.
Proof.
  revert c. induction l1 as [|t1 l1 IH]; intros c; [reflexivity|].
  cbn [list_prod]. rewrite runPairs_app, runPairs_row.
  unfold outerLoop in *. cbn [for_each].
  destruct (innerLoop m1 tf1 m2 tf2 t1 l2 c); cbn [bind]; [apply IH | | ]; reflexivity.
Qed.

End RowMajor.

(** The sequential program is the schedule of one thread. *)
Lemma runSchedule_programOrder (K : Scalar)
      (m1 : BVHModel K) (tf1 : Transform3d K) (m2 : BVHModel K) (tf2 : Transform3d K)
      (pairs : list (Triangle * Triangle)) (c : bool) :
  runSchedule m1 tf1 m2 tf2 (map (fun pair => (pair, true)) pairs) c =
  runPairs m1 tf1 m2 tf2 pairs c.
Proof.
  revert c. induction pairs as [|[t1 t2] pairs IH]; intros c; [reflexivity|].
  unfold runSchedule, runPairs in *. cbn [map for_each scheduledBody fst snd].
  rewrite andb_true_r, (narrowBody_flag m1 tf1 m2 tf2 t1 t2 c).
  destruct c; cbn [bind]; [apply IH|].
  destruct (narrowBody m1 tf1 m2 tf2 t1 t2 false); cbn [bind orb];
    [apply IH | | ]; reflexivity.
Qed.

Lemma AtayBayazitCollide_programOrder (K : Scalar)
      (m1 : BVHModel K) (tf1 : Transform3d K) (m2 : BVHModel K) (tf2 : Transform3d K) :
  schedules (programOrder m1 m2) m1 m2 /\
  AtayBayazitCollideUnder (programOrder m1 m2) m1 tf1 m2 tf2 =
  AtayBayazitCollide m1 tf1 m2 tf2.
Proof.
  split.
  - unfold schedules, programOrder. rewrite map_map. cbn [fst].
    rewrite map_id. apply Permutation_refl.
  - unfold AtayBayazitCollideUnder, AtayBayazitCollide, narrowPhase, programOrder.
    destruct (PrimitiveBroadPhase m1 tf1 m2 tf2); cbn [negb]; [|reflexivity].
    now rewrite runSchedule_programOrder, outerLoop_row_major.
Qed.

Lemma runSchedule_app (K : Scalar)
      (m1 : BVHModel K) (tf1 : Transform3d K) (m2 : BVHModel K) (tf2 : Transform3d K)
      (pre post : list Turn) (c : bool) :
  runSchedule m1 tf1 m2 tf2 (pre ++ post) c =
  c' <- runSchedule m1 tf1 m2 tf2 pre c ;; runSchedule m1 tf1 m2 tf2 post c'.
Proof. apply for_each_app. Qed.

(** Iterations that see the raised flag read nothing. *)
Lemma runSchedule_seen (K : Scalar)
      (m1 : BVHModel K) (tf1 : Transform3d K) (m2 : BVHModel K) (tf2 : Transform3d K)
      (post : list Turn) :
  Forall (fun turn : Turn => snd turn = true) post ->
  runSchedule m1 tf1 m2 tf2 post true = Return true.
Proof.
  intros Seen. induction Seen as [|[[t1 t2] sees] post S _ IH]; [reflexivity|].
  cbn [snd] in S. subst sees. exact IH.
Qed.

(** X2.  With all triangle indices in bounds the unsynchronised flag is
    harmless: under every schedule of the parallel loop nest, that is any
    order of the iterations, each seeing the flag up to date or stale, the
    query returns what the sequential program returns. *)
Theorem AtayBayazitCollide_any_schedule (K : Scalar)
        (m1 : BVHModel K) (tf1 : Transform3d K) (m2 : BVHModel K) (tf2 : Transform3d K)
        (schedule : list Turn) :
  wellFormed m1 -> wellFormed m2 -> schedules schedule m1 m2 ->
  AtayBayazitCollideUnder schedule m1 tf1 m2 tf2 = AtayBayazitCollide m1 tf1 m2 tf2.
Proof.
  intros W1 W2 P. unfold AtayBayazitCollideUnder, AtayBayazitCollide, narrowPhase.
  destruct (PrimitiveBroadPhase m1 tf1 m2 tf2); cbn [negb]; [|reflexivity].
  unfold schedules in P.
  rewrite (outerLoop_inBounds tf1 tf2 W1 W2), runSchedule_inBounds.
  - cbn [orb]. f_equal. rewrite (existsb_Permutation _ P). apply existsb_list_prod.
  - apply Forall_forall. intros [t1 t2] I.
    apply (Permutation_in _ P), in_prod_iff in I. destruct I as [I1 I2].
    unfold wellFormed in W1, W2. rewrite Forall_forall in W1, W2. split; auto.
Qed.

Lemma AtayBayazitCollide_any_schedule_witness :
  AtayBayazitCollideUnder
    [ (Tri 0 2 3, Tri 1 2 3, false); (Tri 0 2 3, Tri 0 1 2, true);
      (Tri 0 1 2, Tri 1 2 3, false); (Tri 0 1 2, Tri 0 1 2, true) ]
    square64 identity64 tilted64 identity64
  = AtayBayazitCollide square64 identity64 tilted64 identity64.
Proof.
  apply (@AtayBayazitCollide_any_schedule binary64 square64 identity64 tilted64 identity64).
  - repeat constructor.
  - repeat constructor.
  - apply Permutation_rev.
Defined.

(** X3.  Early exit: an iteration that sees the flag raised reads no
    vertex.  So when the first turns of a schedule raise the flag and
    every later iteration sees it, as every iteration does in a run on one
    thread, the query returns [true] whatever the triangles of the later
    turns hold, indices past the end of the buffer included. *)
Theorem AtayBayazitCollide_early_exit (K : Scalar)
        (m1 : BVHModel K) (tf1 : Transform3d K) (m2 : BVHModel K) (tf2 : Transform3d K)
        (pre post : list Turn) :
  runSchedule m1 tf1 m2 tf2 pre false = Return true ->
  Forall (fun turn : Turn => snd turn = true) post ->
  PrimitiveBroadPhase m1 tf1 m2 tf2 = true ->
  (forall (t1 t2 : Triangle),
     scheduledBody m1 tf1 m2 tf2 true (t1, t2, true) = Return true) /\
  AtayBayazitCollideUnder (pre ++ post) m1 tf1 m2 tf2 = Return true.
Proof.
  intros Hit Seen Broad. split; [reflexivity|].
  unfold AtayBayazitCollideUnder. rewrite Broad. cbn [negb].
  rewrite runSchedule_app, Hit. cbn [bind].
  now apply runSchedule_seen.
Qed.

Lemma AtayBayazitCollide_early_exit_witness :
  AtayBayazitCollideUnder
    ([(Tri 0 1 2, Tri 0 1 2, false)] ++ [(Tri 0 1 7, Tri 0 1 2, true)])
    soundThenStray64 identity64 originTriangle64 identity64 = Return true.
Proof.
  apply (@AtayBayazitCollide_early_exit binary64 soundThenStray64 identity64
           originTriangle64 identity64
           [(Tri 0 1 2, Tri 0 1 2, false)] [(Tri 0 1 7, Tri 0 1 2, true)]).
  - vm_compute. reflexivity.
  - repeat constructor.
  - vm_compute. reflexivity.
Defined.

(* ================================================================= *)
(** ** Meshes with indices in bounds *)

(** With indices in bounds the query has a closed form. *)
Lemma collide_closed_form (K : Scalar)
      (m1 : BVHModel K) (tf1 : Transform3d K) (m2 : BVHModel K) (tf2 : Transform3d K) :
  wellFormed m1 -> wellFormed m2 ->
  AtayBayazitCollide m1 tf1 m2 tf2 =
  Return (PrimitiveBroadPhase m1 tf1 m2 tf2
          && existsb (fun t1 => existsb (hit m1 tf1 m2 tf2 t1) (tri_indices m2))
                     (tri_indices m1)).
Proof.
  intros W1 W2. unfold AtayBayazitCollide, narrowPhase.
  destruct (PrimitiveBroadPhase m1 tf1 m2 tf2); cbn [negb andb]; [|reflexivity].
  now rewrite (outerLoop_inBounds tf1 tf2 W1 W2).
Qed.

(** X4.  With all triangle indices in bounds the query never reads past
    the end of a vertex buffer and never throws: it returns a Boolean,
    the conjunction of the broad phase with the disjunction of the
    triangle test over all pairs. *)
Theorem AtayBayazitCollide_in_bounds (K : Scalar)
        (m1 : BVHModel K) (tf1 : Transform3d K) (m2 : BVHModel K) (tf2 : Transform3d K) :
  wellFormed m1 -> wellFormed m2 ->
  AtayBayazitCollide m1 tf1 m2 tf2 <> Undefined /\
  (forall e, AtayBayazitCollide m1 tf1 m2 tf2 <> Throw e) /\
  AtayBayazitCollide m1 tf1 m2 tf2 =
  Return (PrimitiveBroadPhase m1 tf1 m2 tf2
          && existsb (fun t1 => existsb (hit m1 tf1 m2 tf2 t1) (tri_indices m2))
                     (tri_indices m1)).
Proof.
  intros W1 W2. rewrite (collide_closed_form tf1 tf2 W1 W2).
  split; [discriminate|]. split; [discriminate | reflexivity].
Qed.

Lemma AtayBayazitCollide_in_bounds_witness :
  AtayBayazitCollide square64 identity64 tilted64 identity64 <> Undefined /\
  (forall e, AtayBayazitCollide square64 identity64 tilted64 identity64 <> Throw e) /\
  AtayBayazitCollide square64 identity64 tilted64 identity64 =
  Return (PrimitiveBroadPhase square64 identity64 tilted64 identity64
          && existsb (fun t1 => existsb (hit square64 identity64 tilted64 identity64 t1)
                                        (tri_indices tilted64))
                     (tri_indices square64)).
Proof.
  apply (@AtayBayazitCollide_in_bounds binary64); repeat constructor.
Defined.

(** X1's witness: the four pairs of two two-triangle meshes, backwards. *)
Lemma narrowPhase_any_order_witness :
  runPairs square64 identity64 tilted64 identity64
           [ (Tri 0 2 3, Tri 1 2 3); (Tri 0 2 3, Tri 0 1 2);
             (Tri 0 1 2, Tri 1 2 3); (Tri 0 1 2, Tri 0 1 2) ] false
  = narrowPhase square64 identity64 tilted64 identity64.
Proof.
  apply (@narrowPhase_any_order binary64 square64 identity64 tilted64 identity64).
  - repeat constructor.
  - repeat constructor.
  - apply Permutation_rev.
Defined.

(* ================================================================= *)
(** ** A mesh against itself, and the two arguments exchanged *)

Section Self.
Context {K : Scalar}.
Hypothesis irr : forall x : K, less x x = false.

(** No coordinate of the scanned box has its maximum below its
    minimum. *)
Lemma boundingBox_no_inversion (tf : Transform3d K) (v0 : Vector3d K)
      (rest : list (Vector3d K)) (i : nat) :
  less (coord (snd (boundingBox tf v0 rest)) i) (coord (fst (boundingBox tf v0 rest)) i)
  = false.
Proof.
  destruct (boundingBox_coord tf v0 rest i) as [-> ->].
  apply scan_no_inversion; auto.
Qed.

Lemma PrimitiveBroadPhase_same (m : BVHModel K) (tf : Transform3d K) :
  num_vertices m <> 0 -> PrimitiveBroadPhase m tf m tf = true.
Proof.
  unfold num_vertices. intros N.
  destruct (vertices m) as [|v0 rest] eqn:E; [now elim N|].
  rewrite (PrimitiveBroadPhase_unfold m m tf tf E E). apply forallb_forall.
  intros i _. unfold axisGap. now rewrite boundingBox_no_inversion.
Qed.

Lemma hit_same (m : BVHModel K) (tf : Transform3d K) (t : Triangle) :
  inBounds m t -> hit m tf m tf t t = true.
Proof.
  intros B. apply (inBounds_worldTriangle m tf) in B. destruct B as [[[W0 W1] W2] E].
  unfold hit. rewrite E. now apply TriTriIntersect_reflexive.
Qed.

End Self.

(** X6.  A mesh that has a vertex always passes the broad phase against
    itself under the same transform: no scanned box has a maximum below its
    own minimum.  This needs only that no number is below itself, so it
    holds for doubles whatever the coordinates are. *)
Theorem PrimitiveBroadPhase_self (K : Scalar) (irr : forall x : K, less x x = false)
        (m : BVHModel K) (tf : Transform3d K) :
  num_vertices m <> 0 ->
  PrimitiveBroadPhase m tf m tf = true /\
  forall (v0 : Vector3d K) (rest : list (Vector3d K)) (i : nat),
    vertices m = v0 :: rest ->
    less (coord (snd (boundingBox tf v0 rest)) i) (coord (fst (boundingBox tf v0 rest)) i)
    = false.
Proof.
  intros N. split.
  - exact (@PrimitiveBroadPhase_same K irr m tf N).
  - intros v0 rest i _. now apply boundingBox_no_inversion.
Qed.

Lemma PrimitiveBroadPhase_self_witness :
  PrimitiveBroadPhase loneVertex64 identity64 loneVertex64 identity64 = true.
Proof.
  apply (@PrimitiveBroadPhase_self binary64 binary64_less_irrefl loneVertex64 identity64).
  discriminate.
Defined.

(** X5.  A mesh with at least one triangle and all indices in bounds
    collides with itself under the same transform: the query returns
    [true].  This too needs only that no number is below itself. *)
Theorem AtayBayazitCollide_self (K : Scalar) (irr : forall x : K, less x x = false)
        (m : BVHModel K) (tf : Transform3d K) :
  wellFormed m -> num_tris m <> 0 ->
  AtayBayazitCollide m tf m tf = Return true.
Proof.
  intros W N. rewrite (collide_closed_form tf tf W W).
  unfold num_tris, wellFormed in *.
  destruct (tri_indices m) as [|t ts] eqn:E; [now elim N|].
  inversion W as [|t' ts' B _]; subst.
  assert (V : num_vertices m <> 0) by (destruct B as [B _]; lia).
  rewrite (@PrimitiveBroadPhase_same K irr m tf V). cbn [andb existsb].
  now rewrite (@hit_same K irr m tf t B).
Qed.

Lemma AtayBayazitCollide_self_witness :
  AtayBayazitCollide tilted64 identity64 tilted64 identity64 = Return true.
Proof.
  apply (@AtayBayazitCollide_self binary64 binary64_less_irrefl).
  - repeat constructor.
  - discriminate.
Defined.

(** X7.  The broad phase does not care which mesh comes first, for every
    number type and all meshes and transforms. *)
Theorem PrimitiveBroadPhase_symmetric (K : Scalar)
        (m1 : BVHModel K) (tf1 : Transform3d K) (m2 : BVHModel K) (tf2 : Transform3d K) :
  PrimitiveBroadPhase m1 tf1 m2 tf2 = PrimitiveBroadPhase m2 tf2 m1 tf1.
Proof.
  unfold PrimitiveBroadPhase.
  destruct (vertices m1) as [|a0 r1] eqn:E1, (vertices m2) as [|b0 r2] eqn:E2;
    try reflexivity.
  destruct (boundingBox tf1 a0 r1) as [min1 max1].
  destruct (boundingBox tf2 b0 r2) as [min2 max2].
  rewrite (orb_comm (less (vx max2) (vx min1))), (orb_comm (less (vy max2) (vy min1))),
          (orb_comm (less (vz max2) (vz min1))).
  reflexivity.
Qed.

(** X8.  The triangle test does not care which triangle comes first, when
    the arithmetic has a negation that the operations and the comparison
    respect (exact arithmetic, and doubles up to the sign of zero): the
    nine edge cross products change sign and the two normals change
    places. *)
Theorem TriTriIntersect_symmetric (K : Scalar) (same : K -> K -> Prop) (opp : K -> K)
        (sign : SignLaws K same opp) (U0 U1 U2 V0 V1 V2 : Vector3d K) :
  TriTriIntersect U0 U1 U2 V0 V1 V2 = TriTriIntersect V0 V1 V2 U0 U1 U2.
Proof.
  apply eq_true_iff_eq. split; apply (TriTriIntersect_one_way sign).
Qed.

Lemma TriTriIntersect_symmetric_witness :
  TriTriIntersect (vec64 0 0 0) (vec64 1 0 0) (vec64 0 1 0)
                  (vec64 0 0 5) (vec64 1 0 5) (vec64 0 1 5) =
  TriTriIntersect (vec64 0 0 5) (vec64 1 0 5) (vec64 0 1 5)
                  (vec64 0 0 0) (vec64 1 0 0) (vec64 0 1 0).
Proof. apply (TriTriIntersect_symmetric binary64_sign). Defined.

(** X9.  The direction of an axis along its line is irrelevant to the
    axis test: the opposite axis gives the same answer (under the same
    laws), because the projected intervals are mirrored, minimum and
    maximum changing places. *)
Theorem checkOverlapOnAxis_opposite (K : Scalar) (same : K -> K -> Prop) (opp : K -> K)
        (sign : SignLaws K same opp) (axis : Vector3d K) (U V : Array3 K) :
  checkOverlapOnAxis (Vec (opp (vx axis)) (opp (vy axis)) (opp (vz axis))) U V =
  checkOverlapOnAxis axis U V /\
  same (fst (projectOnAxis (Vec (opp (vx axis)) (opp (vy axis)) (opp (vz axis))) U))
       (opp (snd (projectOnAxis axis U))) /\
  same (snd (projectOnAxis (Vec (opp (vx axis)) (opp (vy axis)) (opp (vz axis))) U))
       (opp (fst (projectOnAxis axis U))).
Proof.
  assert (M : mirrored same opp (Vec (opp (vx axis)) (opp (vy axis)) (opp (vz axis))) axis)
    by (repeat split; apply (same_refl sign)).
  split.
  - exact (checkOverlapOnAxis_mirrored sign U V M).
  - exact (projectOnAxis_mirrored sign U M).
Qed.

Lemma checkOverlapOnAxis_opposite_witness :
  checkOverlapOnAxis (vec64 (- 0) (- 0) (- 1)) flatU64 liftedV64 =
  checkOverlapOnAxis (vec64 0 0 1) flatU64 liftedV64.
Proof.
  apply (checkOverlapOnAxis_opposite binary64_sign (vec64 0 0 1) flatU64 liftedV64).
Defined.

(** X11.  Splitting the triangle buffer of the first mesh in two and
    asking twice gives the parts of the answer: with indices in bounds,
    the query on the whole buffer returns the disjunction of the queries
    on the two parts. *)
Theorem AtayBayazitCollide_split (K : Scalar)
        (vs : list (Vector3d K)) (ta tb : list Triangle) (tf1 : Transform3d K)
        (m2 : BVHModel K) (tf2 : Transform3d K) :
  wellFormed (Model vs (ta ++ tb)) -> wellFormed m2 ->
  exists a b : bool,
    AtayBayazitCollide (Model vs ta) tf1 m2 tf2 = Return a /\
    AtayBayazitCollide (Model vs tb) tf1 m2 tf2 = Return b /\
    AtayBayazitCollide (Model vs (ta ++ tb)) tf1 m2 tf2 = Return (a || b).
Proof.
  intros W W2. unfold wellFormed in W. cbn [tri_indices] in W.
  apply Forall_app in W. destruct W as [Wa Wb].
  assert (Wa' : wellFormed (Model vs ta)) by exact Wa.
  assert (Wb' : wellFormed (Model vs tb)) by exact Wb.
  assert (Wab : wellFormed (Model vs (ta ++ tb)))
    by (apply Forall_app; split; [exact Wa | exact Wb]).
  rewrite (collide_closed_form tf1 tf2 Wa' W2),
          (collide_closed_form tf1 tf2 Wb' W2),
          (collide_closed_form tf1 tf2 Wab W2).
  do 2 eexists. split; [reflexivity|]. split; [reflexivity|].
  f_equal. cbn [tri_indices]. rewrite existsb_app.
  change (PrimitiveBroadPhase (Model vs (ta ++ tb)) tf1 m2 tf2)
    with (PrimitiveBroadPhase (Model vs ta) tf1 m2 tf2).
  change (PrimitiveBroadPhase (Model vs tb) tf1 m2 tf2)
    with (PrimitiveBroadPhase (Model vs ta) tf1 m2 tf2).
  destruct (PrimitiveBroadPhase (Model vs ta) tf1 m2 tf2); cbn [andb]; reflexivity.
Qed.

Lemma AtayBayazitCollide_split_witness :
  exists a b : bool,
    AtayBayazitCollide (Model (vertices square64) [Tri 0 1 2]) identity64
                       tilted64 identity64 = Return a /\
    AtayBayazitCollide (Model (vertices square64) [Tri 0 2 3]) identity64
                       tilted64 identity64 = Return b /\
    AtayBayazitCollide (Model (vertices square64) ([Tri 0 1 2] ++ [Tri 0 2 3])) identity64
                       tilted64 identity64 = Return (a || b).
Proof.
  apply (@AtayBayazitCollide_split binary64); repeat constructor.
Defined.

(* ================================================================= *)
(** ** Triangles collapsed to a point *)

Section Points.
Context {K : Scalar}.
Variables regular null : K -> Prop.
Hypothesis laws : NullLaws K regular null.

Lemma vsub_self_null (p : Vector3d K) :
  eachCoordinate regular p -> eachCoordinate null (vsub p p).
Proof. intros (Hx & Hy & Hz). repeat split; now apply (minus_self laws). Qed.

Lemma cross_null (a b : Vector3d K) :
  eachCoordinate null a -> eachCoordinate null b -> eachCoordinate null (cross a b).
Proof.
  intros (Ax & Ay & Az) (Bx & By & Bz).
  repeat split; cbn [cross vx vy vz];
    apply (minus_null laws); now apply (times_null laws).
Qed.

Lemma squaredNorm_null (a : Vector3d K) :
  eachCoordinate null a -> less (squaredNorm a) epsilon = true.
Proof.
  intros (Ax & Ay & Az). apply (null_small laws). unfold squaredNorm, dot.
  repeat apply (plus_null laws); now apply (times_null laws).
Qed.

End Points.

(** X10.  Two triangles that are each collapsed to one point are
    reported as intersecting wherever the two points are: all their edges
    are zero vectors, so each of the eleven axes is a zero vector and is
    passed by the degenerate-axis rule.  The coordinates must cancel
    themselves ([x - x] is zero), as all numbers do in exact arithmetic
    and all finite doubles do. *)
Theorem TriTriIntersect_points (K : Scalar) (regular null : K -> Prop)
        (laws : NullLaws K regular null) (P Q : Vector3d K) :
  eachCoordinate regular P -> eachCoordinate regular Q ->
  TriTriIntersect P P P Q Q Q = true /\
  forall axis, In axis (candidateAxes (P, P, P) (Q, Q, Q)) ->
               less (squaredNorm axis) epsilon = true.
Proof.
  intros RP RQ.
  pose proof (vsub_self_null laws RP) as NP.
  pose proof (vsub_self_null laws RQ) as NQ.
  assert (Axes : forall axis, In axis (candidateAxes (P, P, P) (Q, Q, Q)) ->
                              less (squaredNorm axis) epsilon = true).
  { intros axis Hin. apply (squaredNorm_null laws).
    unfold candidateAxes, faceNormal, edgeVectors in Hin.
    cbn [flat_map map app In] in Hin.
    repeat (destruct Hin as [<- | Hin]; [now apply (cross_null laws)|]).
    contradiction. }
  split; [|exact Axes].
  rewrite TriTriIntersect_forallb. apply forallb_forall.
  intros axis Hin. apply checkOverlapOnAxis_degenerate, Axes, Hin.
Qed.

Lemma rational_null : NullLaws rational (fun _ => True) nullQ.
Proof.
  split; unfold nullQ; cbn [num plus minus times less epsilon rational].
  - intros x _. ring.
  - intros a b Ha Hb. rewrite Ha, Hb. ring.
  - intros a b Ha Hb. rewrite Ha, Hb. ring.
  - intros a b Ha Hb. rewrite Ha, Hb. ring.
  - intros a Ha. apply Qltb_lt. rewrite Ha. reflexivity.
Qed.

Lemma binary64_null : NullLaws binary64 regular64 null64.
Proof.
  split; unfold regular64, null64; cbn [num plus minus times less epsilon binary64].
  - intros x R. rewrite sub_spec. unfold SF64sub.
    destruct (Prim2SF x) as [[] | | | s m e]; try contradiction; cbn [SFsub];
      try (eexists; reflexivity).
    rewrite Z.sub_diag. cbn [binary_normalize]. eexists. reflexivity.
  - intros a b [sa Ha] [sb Hb]. rewrite mul_spec, Ha, Hb. eexists. reflexivity.
  - intros a b [sa Ha] [sb Hb]. rewrite sub_spec, Ha, Hb.
    destruct sa, sb; eexists; reflexivity.
  - intros a b [sa Ha] [sb Hb]. rewrite add_spec, Ha, Hb.
    destruct sa, sb; eexists; reflexivity.
  - intros a [sa Ha]. rewrite ltb_spec, Ha. destruct sa; vm_compute; reflexivity.
Qed.

Lemma TriTriIntersect_points_witness :
  TriTriIntersect (vec64 0 0 0) (vec64 0 0 0) (vec64 0 0 0)
                  (vec64 7 8 9) (vec64 7 8 9) (vec64 7 8 9) = true.
Proof.
  apply (@TriTriIntersect_points binary64 regular64 null64 binary64_null
           (vec64 0 0 0) (vec64 7 8 9));
    repeat split; vm_compute; exact I.
Defined.

(* ================================================================= *)
(** ** The sphere mesh generator *)

Lemma In_below (i n : Z) : In i (below n) <-> (0 <= i < n)%Z.
Proof.
  unfold below. rewrite in_map_iff. split.
  - intros (k & <- & Hk). apply in_seq in Hk. lia.
  - intros H. exists (Z.to_nat i). split; [lia | apply in_seq; lia].
Qed.

Lemma length_below (n : Z) : length (below n) = Z.to_nat n.
Proof. unfold below. now rewrite length_map, length_seq. Qed.

Lemma length_upto (n : Z) : length (upto n) = Z.to_nat (n + 1).
Proof. unfold upto. now rewrite length_map, length_seq. Qed.

Lemma flat_map_length_const {A B : Type} (f : A -> list B) (n : nat) (l : list A) :
  (forall a, length (f a) = n) -> length (flat_map f l) = length l * n.
Proof.
  intros H. induction l as [|a l IH]; [reflexivity|].
  cbn [flat_map length]. rewrite length_app, H, IH. lia.
Qed.

Lemma int_wrap_small (x : Z) : (- 2 ^ 31 <= x < 2 ^ 31)%Z -> int_wrap x = x.
Proof. intros H. unfold int_wrap. rewrite Z.mod_small; lia. Qed.

Lemma size_t_small (x : Z) : (0 <= x < 2 ^ 31)%Z -> size_t_of_int x = Z.to_nat x.
Proof. intros H. unfold size_t_of_int. rewrite Z.mod_small; lia. Qed.

(** Inside the loops nothing wraps: the two triangles of a cell are built
    from [first = i * (slices + 1) + j] as written, and the largest index,
    [second + 1], stays below the number of vertices. *)
Lemma sphereQuad_exact (stacks slices i j : Z) :
  fitsInt stacks slices -> (0 <= i < stacks)%Z -> (0 <= j < slices)%Z ->
  let first := (i * (slices + 1) + j)%Z in
  sphereQuad slices i j =
    [ Tri (Z.to_nat first) (Z.to_nat (first + slices + 1)) (Z.to_nat (first + 1));
      Tri (Z.to_nat (first + slices + 1)) (Z.to_nat (first + slices + 2))
          (Z.to_nat (first + 1)) ] /\
  (0 <= first)%Z /\ (first + slices + 2 < (stacks + 1) * (slices + 1))%Z.
Proof.
  intros (Hst & Hsl & Fit) Hi Hj first.
  rewrite !Z.max_r in Fit by lia.
  assert (B1 : (0 <= i * (slices + 1))%Z) by nia.
  assert (B2 : (i * (slices + 1) + (slices + 1) <= stacks * (slices + 1))%Z) by nia.
  assert (B3 : ((stacks + 1) * (slices + 1) = stacks * (slices + 1) + slices + 1)%Z)
    by ring.
  assert (E1 : int_add slices 1 = (slices + 1)%Z)
    by (apply int_wrap_small; lia).
  assert (E2 : int_mul i (slices + 1) = (i * (slices + 1))%Z)
    by (apply int_wrap_small; lia).
  assert (E3 : int_add (i * (slices + 1)) j = first)
    by (apply int_wrap_small; unfold first; lia).
  assert (E4 : int_add first slices = (first + slices)%Z)
    by (apply int_wrap_small; unfold first; lia).
  assert (E5 : int_add (first + slices) 1 = (first + slices + 1)%Z)
    by (apply int_wrap_small; unfold first; lia).
  assert (E6 : int_add first 1 = (first + 1)%Z)
    by (apply int_wrap_small; unfold first; lia).
  assert (E7 : int_add (first + slices + 1) 1 = (first + slices + 2)%Z).
  { unfold int_add. replace (first + slices + 1 + 1)%Z with (first + slices + 2)%Z by lia.
    apply int_wrap_small. unfold first. lia. }
  split; [|unfold first; lia].
  unfold sphereQuad. rewrite E1, E2, E3, E4, E5, E6, E7.
  rewrite !size_t_small by (unfold first; lia). reflexivity.
Qed.

Lemma In_sphereTriangles (stacks slices : Z) (t : Triangle) :
  In t (sphereTriangles stacks slices) <->
  exists i j, (0 <= i < stacks)%Z /\ (0 <= j < slices)%Z /\ In t (sphereQuad slices i j).
Proof.
  unfold sphereTriangles. rewrite in_flat_map. split.
  - intros (i & Hi & H). apply in_flat_map in H. destruct H as (j & Hj & H).
    exists i, j. rewrite In_below in Hi, Hj. auto.
  - intros (i & j & Hi & Hj & H). exists i. split; [now apply In_below|].
    apply in_flat_map. exists j. split; [now apply In_below | exact H].
Qed.

Lemma length_sphereVertices {K : Scalar} (libm : Libm K) (radius : K) (stacks slices : Z) :
  length (sphereVertices libm radius stacks slices) =
  Z.to_nat (stacks + 1) * Z.to_nat (slices + 1).
Proof.
  unfold sphereVertices.
  rewrite flat_map_length_const with (n := Z.to_nat (slices + 1));
    [now rewrite length_upto|].
  intros i. now rewrite length_map, length_upto.
Qed.

Lemma length_sphereTriangles (stacks slices : Z) :
  length (sphereTriangles stacks slices) = 2 * (Z.to_nat stacks * Z.to_nat slices).
Proof.
  unfold sphereTriangles.
  rewrite flat_map_length_const with (n := Z.to_nat slices * 2);
    [rewrite length_below; lia|].
  intros i. rewrite flat_map_length_const with (n := 2);
    [now rewrite length_below|].
  intros j. reflexivity.
Qed.

(** X12.  The generator makes [(stacks + 1) * (slices + 1)] vertices and
    [2 * stacks * slices] triangles, none of either when the factor is not
    positive. *)
Theorem createSphereMesh_counts (K : Scalar) (libm : Libm K) (radius : K)
        (stacks slices : Z) :
  fitsInt stacks slices ->
  num_vertices (createSphereMesh libm radius stacks slices) =
    Z.to_nat (stacks + 1) * Z.to_nat (slices + 1) /\
  num_tris (createSphereMesh libm radius stacks slices) =
    2 * (Z.to_nat stacks * Z.to_nat slices).
Proof.
  intros _. unfold num_vertices, num_tris, createSphereMesh. cbn [vertices tri_indices].
  split; [apply length_sphereVertices | apply length_sphereTriangles].
Qed.

Lemma createSphereMesh_counts_witness :
  num_vertices (createSphereMesh seriesLibm64 1%float 3 4) = 20 /\
  num_tris (createSphereMesh seriesLibm64 1%float 3 4) = 24.
Proof.
  apply (@createSphereMesh_counts binary64 seriesLibm64 1%float 3%Z 4%Z).
  unfold fitsInt. vm_compute. intuition discriminate.
Defined.

Lemma sphere_inBounds {K : Scalar} (libm : Libm K) (radius : K) (stacks slices : Z)
      (t : Triangle) :
  fitsInt stacks slices -> In t (sphereTriangles stacks slices) ->
  inBounds (createSphereMesh libm radius stacks slices) t.
Proof.
  intros Fit H. apply In_sphereTriangles in H. destruct H as (i & j & Hi & Hj & H).
  destruct (sphereQuad_exact Fit Hi Hj) as (E & Lo & Hi').
  rewrite E in H. unfold inBounds, num_vertices, createSphereMesh. cbn [vertices].
  rewrite length_sphereVertices, <- Z2Nat.inj_mul by lia.
  destruct H as [<- | [<- | []]]; cbn [vid0 vid1 vid2];
    repeat split; apply Z2Nat.inj_lt; lia.
Qed.

(** X13.  Every index of every triangle that the generator makes lies
    inside the vertex buffer it makes: the mesh is one on which the
    collision query reads nothing out of bounds. *)
Theorem createSphereMesh_wellFormed (K : Scalar) (libm : Libm K) (radius : K)
        (stacks slices : Z) :
  fitsInt stacks slices -> wellFormed (createSphereMesh libm radius stacks slices).
Proof.
  intros Fit. unfold wellFormed. apply Forall_forall. intros t H.
  cbn [createSphereMesh tri_indices] in H. now apply sphere_inBounds.
Qed.

Lemma fitsInt_3_4 : fitsInt 3 4.
Proof. unfold fitsInt. vm_compute. intuition discriminate. Qed.

Lemma createSphereMesh_wellFormed_witness :
  wellFormed (createSphereMesh seriesLibm64 1%float 3 4).
Proof. apply (@createSphereMesh_wellFormed binary64 seriesLibm64 1%float 3%Z 4%Z fitsInt_3_4). Defined.

(** X14.  No triangle of the generator repeats an index: its three
    corners are three different vertices of the buffer. *)
Theorem createSphereMesh_distinct (K : Scalar) (libm : Libm K) (radius : K)
        (stacks slices : Z) (t : Triangle) :
  fitsInt stacks slices ->
  In t (tri_indices (createSphereMesh libm radius stacks slices)) ->
  distinctIndices t.
Proof.
  intros Fit H. cbn [createSphereMesh tri_indices] in H.
  apply In_sphereTriangles in H. destruct H as (i & j & Hi & Hj & H).
  destruct (sphereQuad_exact Fit Hi Hj) as (E & Lo & Hi').
  rewrite E in H. unfold distinctIndices.
  destruct H as [<- | [<- | []]]; cbn [vid0 vid1 vid2];
    repeat split; intros Eq; apply Z2Nat.inj in Eq; lia.
Qed.

Lemma createSphereMesh_distinct_witness : distinctIndices (Tri 0 5 1).
Proof.
  apply (@createSphereMesh_distinct binary64 seriesLibm64 1%float 3%Z 4%Z (Tri 0 5 1)
           fitsInt_3_4).
  vm_compute. tauto.
Defined.

(** X16.  With at least one stack and one slice every vertex of the
    generated buffer is a corner of some generated triangle: the box that
    the broad phase scans over all vertices is the box of the surface. *)
Theorem createSphereMesh_no_orphan (K : Scalar) (libm : Libm K) (radius : K)
        (stacks slices : Z) (k : nat) :
  fitsInt stacks slices -> (1 <= stacks)%Z -> (1 <= slices)%Z ->
  k < num_vertices (createSphereMesh libm radius stacks slices) ->
  exists t, In t (tri_indices (createSphereMesh libm radius stacks slices)) /\
            cornerOf k t.
Proof.
  intros Fit Hst Hsl Hk.
  unfold num_vertices, createSphereMesh in Hk. cbn [vertices] in Hk.
  rewrite length_sphereVertices, <- Z2Nat.inj_mul in Hk by lia.
  cbn [createSphereMesh tri_indices].
  pose proof (Z.div_mod (Z.of_nat k) (slices + 1) ltac:(lia)) as D.
  pose proof (Z.mod_pos_bound (Z.of_nat k) (slices + 1) ltac:(lia)) as M.
  set (i := (Z.of_nat k / (slices + 1))%Z) in *.
  set (j := (Z.of_nat k mod (slices + 1))%Z) in *.
  assert (Kb : (Z.of_nat k < (stacks + 1) * (slices + 1))%Z) by lia.
  assert (Ilo : (0 <= i)%Z) by (apply Z.div_pos; lia).
  assert (Ihi : (i <= stacks)%Z) by nia.
  assert (Pick : forall i' j' t,
            (0 <= i' < stacks)%Z -> (0 <= j' < slices)%Z ->
            In t (sphereQuad slices i' j') -> cornerOf k t ->
            exists t, In t (sphereTriangles stacks slices) /\ cornerOf k t).
  { intros i' j' t Hi' Hj' Ht Hc. exists t. split; [|exact Hc].
    apply In_sphereTriangles. exists i', j'. auto. }
  destruct (Z_lt_dec i stacks) as [Li | Li], (Z_lt_dec j slices) as [Lj | Lj].
  - destruct (@sphereQuad_exact stacks slices i j Fit ltac:(lia) ltac:(lia)) as (E & _).
    eapply (Pick i j); [lia | lia | rewrite E; left; reflexivity |].
    left. cbn [vid0]. rewrite <- (Nat2Z.id k). f_equal. lia.
  - destruct (@sphereQuad_exact stacks slices i (j - 1) Fit ltac:(lia) ltac:(lia))
      as (E & _).
    eapply (Pick i (j - 1)%Z); [lia | lia | rewrite E; left; reflexivity |].
    right. right. cbn [vid2]. rewrite <- (Nat2Z.id k). f_equal. lia.
  - destruct (@sphereQuad_exact stacks slices (i - 1) j Fit ltac:(lia) ltac:(lia))
      as (E & _).
    eapply (Pick (i - 1)%Z j); [lia | lia | rewrite E; left; reflexivity |].
    right. left. cbn [vid1]. rewrite <- (Nat2Z.id k). f_equal. nia.
  - destruct (@sphereQuad_exact stacks slices (i - 1) (j - 1) Fit ltac:(lia) ltac:(lia))
      as (E & _).
    eapply (Pick (i - 1)%Z (j - 1)%Z);
      [lia | lia | rewrite E; right; left; reflexivity |].
    right. left. cbn [vid1]. rewrite <- (Nat2Z.id k). f_equal. nia.
Qed.

Lemma createSphereMesh_no_orphan_witness :
  exists t, In t (tri_indices (createSphereMesh seriesLibm64 1%float 3 4)) /\
            cornerOf 19 t.
Proof.
  apply (@createSphereMesh_no_orphan binary64 seriesLibm64 1%float 3%Z 4%Z 19 fitsInt_3_4).
  - lia.
  - lia.
  - vm_compute. repeat constructor.
Defined.

(** X15.  Two generated meshes can be handed to the collision query
    under any transforms: it reads nothing out of bounds and returns a
    Boolean, and the answer does not depend on which of the two comes
    first when the arithmetic has a negation that the operations and the
    comparison respect (as doubles have). *)
Theorem createSphereMesh_collide (K : Scalar) (libm : Libm K)
        (radiusA radiusB : K) (stacksA slicesA stacksB slicesB : Z)
        (tfA tfB : Transform3d K) :
  fitsInt stacksA slicesA -> fitsInt stacksB slicesB ->
  let A := createSphereMesh libm radiusA stacksA slicesA in
  let B := createSphereMesh libm radiusB stacksB slicesB in
  (exists b : bool, AtayBayazitCollide A tfA B tfB = Return b) /\
  (forall (same : K -> K -> Prop) (opp : K -> K), SignLaws K same opp ->
     AtayBayazitCollide A tfA B tfB = AtayBayazitCollide B tfB A tfA).
Proof.
  intros FitA FitB A B.
  assert (WA : wellFormed A).
  { unfold wellFormed. apply Forall_forall. intros t H. now apply sphere_inBounds. }
  assert (WB : wellFormed B).
  { unfold wellFormed. apply Forall_forall. intros t H. now apply sphere_inBounds. }
  split.
  - rewrite (collide_closed_form tfA tfB WA WB). eexists. reflexivity.
  - intros same opp sign. unfold AtayBayazitCollide.
    rewrite (PrimitiveBroadPhase_swap B A).
    destruct (PrimitiveBroadPhase A tfA B tfB); cbn [negb]; [|reflexivity].
    exact (narrowPhase_swap sign tfA tfB WA WB).
Qed.

Lemma createSphereMesh_collide_witness :
  exists b : bool,
    AtayBayazitCollide (createSphereMesh seriesLibm64 1%float 3 4) identity64
                       (createSphereMesh seriesLibm64 2%float 3 4) identity64 = Return b.
Proof.
  apply (@createSphereMesh_collide binary64 seriesLibm64 1%float 2%float
           3%Z 4%Z 3%Z 4%Z identity64 identity64 fitsInt_3_4 fitsInt_3_4).
Defined.

(** X17.  With no stack or no slice the generator makes no triangle (but
    it still makes vertices when the other count is not negative), and the
    mesh collides with nothing, whichever argument it is. *)
Theorem createSphereMesh_flat (K : Scalar) (libm : Libm K) (radius : K)
        (stacks slices : Z) (m : BVHModel K) (tf tf' : Transform3d K) :
  fitsInt stacks slices -> (stacks <= 0)%Z \/ (slices <= 0)%Z ->
  let S := createSphereMesh libm radius stacks slices in
  tri_indices S = [] /\
  AtayBayazitCollide S tf m tf' = Return false /\
  AtayBayazitCollide m tf' S tf = Return false.
Proof.
  intros _ Flat S.
  assert (E : tri_indices S = []).
  { apply length_zero_iff_nil. cbn [S createSphereMesh tri_indices].
    rewrite length_sphereTriangles. destruct Flat as [H | H].
    - replace (Z.to_nat stacks) with 0 by lia. reflexivity.
    - replace (Z.to_nat slices) with 0 by lia. lia. }
  split; [exact E|]. unfold AtayBayazitCollide, narrowPhase. rewrite E. split.
  - destruct (PrimitiveBroadPhase S tf m tf'); reflexivity.
  - destruct (PrimitiveBroadPhase m tf' S tf); cbn [negb]; [|reflexivity].
    apply outerLoop_nothing_to_pair.
Qed.

Lemma createSphereMesh_flat_witness :
  tri_indices (createSphereMesh seriesLibm64 1%float 0 4) = [] /\
  AtayBayazitCollide (createSphereMesh seriesLibm64 1%float 0 4) identity64
                     originTriangle64 identity64 = Return false /\
  AtayBayazitCollide originTriangle64 identity64
                     (createSphereMesh seriesLibm64 1%float 0 4) identity64 = Return false.
Proof.
  apply (@createSphereMesh_flat binary64 seriesLibm64 1%float 0%Z 4%Z
           originTriangle64 identity64 identity64).
  - unfold fitsInt. vm_compute. intuition discriminate.
  - left. lia.
Defined.
